(** * plaid-webhooks: the connection record and the webhook dispatcher

    A shallow embedding of [server.js]: the user record kept in memory and in
    [user_data.json], the Express route handlers, the three webhook product
    handlers and the error-handling middleware.

    JavaScript values are a tree type; the module-level variables, the file
    and everything the process emits (console lines, file-system calls,
    remote calls, HTTP responses) live in one state record threaded through
    a state-and-exception monad.  [JSON.stringify] and [JSON.parse] belong
    to the runtime and are an interface ([JsonRuntime]); the remote client
    and the clock are an environment record ([Env]). *)

From Stdlib Require Import String Ascii List ZArith Bool Lia DecimalString.
Import ListNotations.
Open Scope string_scope.
Set Warnings "-register-all".

(** ** JavaScript values *)

(** The values the server handles: what [JSON.parse] and the body parser
    build, plus [undefined].  An object is its own properties in insertion
    order.  An array carries its elements and, apart, the named properties
    assigned to it.  Numbers are the integer-valued ones. *)
Inductive value : Type :=
| VUndefined
| VNull
| VBool (b : bool)
| VNum (n : Z)
| VStr (s : string)
| VArr (elems : list value) (named : list (string * value))
| VObj (props : list (string * value)).

(** Completion of an evaluation: a value, or a thrown exception (for an
    [async] function: a resolved or a rejected promise). *)
Inductive result (A : Type) : Type :=
| Ok (a : A)
| Throw (e : value).
Arguments Ok {A} a.
Arguments Throw {A} e.

(** A [TypeError] raised by the runtime.  All the server ever reads of an
    exception are its [code] and [response] properties, which a [TypeError]
    lacks. *)
Definition type_error (msg : string) : value :=
  VObj [("name", VStr "TypeError"); ("message", VStr msg)].

(** [v == null] *)
Definition is_nullish (v : value) : bool :=
  match v with
  | VUndefined | VNull => true
  | _ => false
  end.

(** [v === s] for a string literal [s] (the [case] labels of a [switch]). *)
Definition strict_eq_str (v : value) (s : string) : bool :=
  match v with
  | VStr s' => String.eqb s' s
  | _ => false
  end.

(** Truthiness, as [||] and Express's [next] test it. *)
Definition truthy (v : value) : bool :=
  match v with
  | VUndefined | VNull => false
  | VBool b => b
  | VNum n => negb (Z.eqb n 0)
  | VStr s => negb (String.eqb s "")
  | VArr _ _ | VObj _ => true
  end.

Fixpoint lookup (k : string) (ps : list (string * value)) : option value :=
  match ps with
  | [] => None
  | (k', v) :: rest => if String.eqb k' k then Some v else lookup k rest
  end.

(** Assignment of a property: an existing property keeps its place, a new
    one goes last. *)
Fixpoint assign (k : string) (v : value) (ps : list (string * value))
  : list (string * value) :=
  match ps with
  | [] => [(k, v)]
  | (k', v') :: rest =>
      if String.eqb k' k then (k, v) :: rest else (k', v') :: assign k v rest
  end.

Definition has_key (k : string) (ps : list (string * value)) : bool :=
  match lookup k ps with Some _ => true | None => false end.

(** [o[k]] and [o.k]: a missing property reads as [undefined]; reading a
    property of [undefined] or [null] throws.  Only own properties are
    modelled; the server reads no inherited one and no array index. *)
Definition get_prop (o : value) (k : string) : result value :=
  match o with
  | VUndefined =>
      Throw (type_error ("Cannot read properties of undefined (reading '" ++ k ++ "')"))
  | VNull =>
      Throw (type_error ("Cannot read properties of null (reading '" ++ k ++ "')"))
  | VBool _ | VNum _ | VStr _ => Ok VUndefined
  | VArr _ named => Ok (match lookup k named with Some v => v | None => VUndefined end)
  | VObj props => Ok (match lookup k props with Some v => v | None => VUndefined end)
  end.

(** [o[k] = v] under ["use strict"]: assigning to a property of a primitive
    throws, as it does on [undefined] and [null]. *)
Definition set_prop (o : value) (k : string) (v : value) : result value :=
  match o with
  | VUndefined =>
      Throw (type_error ("Cannot set properties of undefined (setting '" ++ k ++ "')"))
  | VNull =>
      Throw (type_error ("Cannot set properties of null (setting '" ++ k ++ "')"))
  | VBool _ | VNum _ | VStr _ =>
      Throw (type_error ("Cannot create property '" ++ k ++ "' on a primitive value"))
  | VArr elems named => Ok (VArr elems (assign k v named))
  | VObj props => Ok (VObj (assign k v props))
  end.

(** [o?.k] *)
Definition get_prop_opt (o : value) (k : string) : result value :=
  if is_nullish o then Ok VUndefined else get_prop o k.

Definition string_of_Z (n : Z) : string :=
  NilZero.string_of_int (Z.to_int n).

(** The string a template literal substitutes for a value ([ToString]).
    An object answers ["[object Object]"] through the inherited method; one
    that shadows [toString] with data has nothing callable left that
    returns a primitive, and the conversion throws.  An array joins its
    elements, [undefined] and [null] as the empty string.  Integers print
    in decimal (as JavaScript does below 10^21). *)
Fixpoint ToString (v : value) : result string :=
  match v with
  | VUndefined => Ok "undefined"
  | VNull => Ok "null"
  | VBool true => Ok "true"
  | VBool false => Ok "false"
  | VNum n => Ok (string_of_Z n)
  | VStr s => Ok s
  | VObj props =>
      if has_key "toString" props
      then Throw (type_error "Cannot convert object to primitive value")
      else Ok "[object Object]"
  | VArr elems named =>
      if has_key "toString" named
      then Throw (type_error "Cannot convert object to primitive value")
      else if has_key "join" named then Ok "[object Array]"
      else
        (fix join (l : list value) : result string :=
           match l with
           | [] => Ok ""
           | x :: rest =>
               match (if is_nullish x then Ok "" else ToString x) with
               | Throw e => Throw e
               | Ok sx =>
                   match rest with
                   | [] => Ok sx
                   | _ :: _ =>
                       match join rest with
                       | Throw e => Throw e
                       | Ok sr => Ok (sx ++ "," ++ sr)
                       end
                   end
               end
           end) elems
  end.

(** ** The runtime's JSON *)

(** [JSON.stringify] answers [undefined] ([None]) or a string;
    [JSON.parse] answers a value or throws a [SyntaxError] ([None]). *)
Class JsonRuntime : Type := {
  JSON_stringify : value -> option string;
  JSON_parse : string -> option value
}.

Definition syntax_error (text : string) : value :=
  VObj [("name", VStr "SyntaxError"); ("message", VStr ("Unexpected token in JSON: " ++ text))].

(** ** A reference JSON runtime

    An executable instance of [JsonRuntime] for the integer-valued fragment
    of JSON, used to run the server on concrete stores and requests.
    Properties are written in insertion order. *)
Module RefJson.

Definition dquote : ascii := "034"%char.
Definition backslash : ascii := "092"%char.

Definition hex_digit (n : nat) : ascii :=
  if Nat.ltb n 10 then ascii_of_nat (48 + n) else ascii_of_nat (87 + n).

(** The escape [JSON.stringify] writes for one character of a string. *)
Definition escape_char (c : ascii) : string :=
  let n := nat_of_ascii c in
  if Ascii.eqb c dquote then String backslash (String dquote "")
  else if Ascii.eqb c backslash then String backslash (String backslash "")
  else if Nat.eqb n 8 then String backslash "b"
  else if Nat.eqb n 9 then String backslash "t"
  else if Nat.eqb n 10 then String backslash "n"
  else if Nat.eqb n 12 then String backslash "f"
  else if Nat.eqb n 13 then String backslash "r"
  else if Nat.ltb n 32
       then String backslash
              (String "u" (String "0" (String "0"
                 (String (hex_digit (n / 16)) (String (hex_digit (n mod 16)) "")))))
  else String c "".

Fixpoint escape (s : string) : string :=
  match s with
  | EmptyString => ""
  | String c r => escape_char c ++ escape r
  end.

Definition quote (s : string) : string :=
  String dquote (escape s) ++ String dquote "".

(** Serialization of a value nested in an array ([undefined] is written
    [null]) or in a property (a property holding [undefined] is left out:
    [None]). *)
Fixpoint write (v : value) : option string :=
  match v with
  | VUndefined => None
  | VNull => Some "null"
  | VBool true => Some "true"
  | VBool false => Some "false"
  | VNum n => Some (string_of_Z n)
  | VStr s => Some (quote s)
  | VArr elems _ =>
      Some ("[" ++
        (fix items (l : list value) : string :=
           match l with
           | [] => ""
           | x :: rest =>
               let sx := match write x with Some t => t | None => "null" end in
               match rest with
               | [] => sx
               | _ :: _ => sx ++ "," ++ items rest
               end
           end) elems ++ "]")
  | VObj props =>
      Some ("{" ++
        (fix members (l : list (string * value)) (first : bool) : string :=
           match l with
           | [] => ""
           | (k, x) :: rest =>
               match write x with
               | None => members rest first
               | Some t =>
                   (if first then "" else ",") ++ quote k ++ ":" ++ t ++ members rest false
               end
           end) props true ++ "}")
  end.

Definition is_ws (c : ascii) : bool :=
  let n := nat_of_ascii c in
  Nat.eqb n 32 || Nat.eqb n 9 || Nat.eqb n 10 || Nat.eqb n 13.

Fixpoint skip_ws (s : string) : string :=
  match s with
  | String c r => if is_ws c then skip_ws r else s
  | EmptyString => s
  end.

Fixpoint strip_prefix (p s : string) : option string :=
  match p, s with
  | EmptyString, _ => Some s
  | String a p', String b s' => if Ascii.eqb a b then strip_prefix p' s' else None
  | String _ _, EmptyString => None
  end.

Definition hex_value (c : ascii) : option nat :=
  let n := nat_of_ascii c in
  if Nat.leb 48 n && Nat.leb n 57 then Some (n - 48)
  else if Nat.leb 97 n && Nat.leb n 102 then Some (n - 87)
  else if Nat.leb 65 n && Nat.leb n 70 then Some (n - 55)
  else None.

(** [\uXXXX] for the code points below 128; the others are outside the
    fragment. *)
Definition unicode_escape (a b c d : ascii) : option ascii :=
  match hex_value a, hex_value b, hex_value c, hex_value d with
  | Some 0, Some 0, Some h, Some l =>
      if Nat.ltb (16 * h + l) 128 then Some (ascii_of_nat (16 * h + l)) else None
  | _, _, _, _ => None
  end.

Definition unescape (e : ascii) : option ascii :=
  if Ascii.eqb e dquote then Some dquote
  else if Ascii.eqb e backslash then Some backslash
  else if Ascii.eqb e "/" then Some "/"%char
  else if Ascii.eqb e "b" then Some (ascii_of_nat 8)
  else if Ascii.eqb e "f" then Some (ascii_of_nat 12)
  else if Ascii.eqb e "n" then Some (ascii_of_nat 10)
  else if Ascii.eqb e "r" then Some (ascii_of_nat 13)
  else if Ascii.eqb e "t" then Some (ascii_of_nat 9)
  else None.

Definition push (c : ascii) (o : option (string * string)) : option (string * string) :=
  match o with
  | Some (t, rest) => Some (String c t, rest)
  | None => None
  end.

(** The characters of a string literal after its opening quote, and what
    follows the closing one. *)
Fixpoint read_chars (s : string) : option (string * string) :=
  match s with
  | EmptyString => None
  | String c r =>
      if Ascii.eqb c dquote then Some ("", r)
      else if Ascii.eqb c backslash then
        match r with
        | EmptyString => None
        | String e r' =>
            if Ascii.eqb e "u" then
              match r' with
              | String a (String b (String c' (String d r''))) =>
                  match unicode_escape a b c' d with
                  | Some ch => push ch (read_chars r'')
                  | None => None
                  end
              | _ => None
              end
            else
              match unescape e with
              | Some ch => push ch (read_chars r')
              | None => None
              end
        end
      else if Nat.ltb (nat_of_ascii c) 32 then None
      else push c (read_chars r)
  end.

Definition is_digit (c : ascii) : bool :=
  let n := nat_of_ascii c in Nat.leb 48 n && Nat.leb n 57.

Fixpoint read_digits (s : string) (acc : Z) : Z * string :=
  match s with
  | String c r =>
      if is_digit c
      then read_digits r (10 * acc + Z.of_nat (nat_of_ascii c - 48))%Z
      else (acc, s)
  | EmptyString => (acc, s)
  end.

(** An integer literal: no leading zero, no fraction, no exponent. *)
Definition read_nat (s : string) : option (Z * string) :=
  match s with
  | String c r =>
      if negb (is_digit c) then None
      else
        let '(n, rest) := read_digits s 0%Z in
        let leading_zero :=
          Ascii.eqb c "0" && match r with String d _ => is_digit d | EmptyString => false end in
        let continues :=
          match rest with
          | String d _ => Ascii.eqb d "." || Ascii.eqb d "e" || Ascii.eqb d "E"
          | EmptyString => false
          end in
        if leading_zero || continues then None else Some (n, rest)
  | EmptyString => None
  end.

Fixpoint read_value (fuel : nat) (s : string) {struct fuel} : option (value * string) :=
  match fuel with
  | O => None
  | S fuel' =>
      match skip_ws s with
      | EmptyString => None
      | String c r =>
          if Ascii.eqb c "{" then
            match skip_ws r with
            | String c' r' =>
                if Ascii.eqb c' "}" then Some (VObj [], r')
                else read_members fuel' (skip_ws r) []
            | EmptyString => None
            end
          else if Ascii.eqb c "[" then
            match skip_ws r with
            | String c' r' =>
                if Ascii.eqb c' "]" then Some (VArr [] [], r')
                else read_elements fuel' r []
            | EmptyString => None
            end
          else if Ascii.eqb c dquote then
            match read_chars r with
            | Some (t, rest) => Some (VStr t, rest)
            | None => None
            end
          else if Ascii.eqb c "-" then
            match read_nat r with
            | Some (n, rest) => Some (VNum (- n), rest)
            | None => None
            end
          else if is_digit c then
            match read_nat (String c r) with
            | Some (n, rest) => Some (VNum n, rest)
            | None => None
            end
          else
            match strip_prefix "null" (String c r) with
            | Some rest => Some (VNull, rest)
            | None =>
                match strip_prefix "true" (String c r) with
                | Some rest => Some (VBool true, rest)
                | None =>
                    match strip_prefix "false" (String c r) with
                    | Some rest => Some (VBool false, rest)
                    | None => None
                    end
                end
            end
      end
  end
with read_elements (fuel : nat) (s : string) (acc : list value) {struct fuel}
  : option (value * string) :=
  match fuel with
  | O => None
  | S fuel' =>
      match read_value fuel' s with
      | None => None
      | Some (v, rest) =>
          match skip_ws rest with
          | String c r =>
              if Ascii.eqb c "," then read_elements fuel' r (acc ++ [v])
              else if Ascii.eqb c "]" then Some (VArr (acc ++ [v]) [], r)
              else None
          | EmptyString => None
          end
      end
  end
with read_members (fuel : nat) (s : string) (acc : list (string * value)) {struct fuel}
  : option (value * string) :=
  match fuel with
  | O => None
  | S fuel' =>
      match s with
      | String q r =>
          if negb (Ascii.eqb q dquote) then None
          else
            match read_chars r with
            | None => None
            | Some (k, rest) =>
                match skip_ws rest with
                | String c r1 =>
                    if negb (Ascii.eqb c ":") then None
                    else
                      match read_value fuel' r1 with
                      | None => None
                      | Some (v, rest1) =>
                          match skip_ws rest1 with
                          | String c' r2 =>
                              if Ascii.eqb c' ","
                              then read_members fuel' (skip_ws r2) (assign k v acc)
                              else if Ascii.eqb c' "}"
                              then Some (VObj (assign k v acc), r2)
                              else None
                          | EmptyString => None
                          end
                      end
                | EmptyString => None
                end
            end
      | EmptyString => None
      end
  end.

(** [JSON.parse]: one value, then nothing but white space. *)
Definition parse (text : string) : option value :=
  match read_value (S (String.length text)) text with
  | Some (v, rest) =>
      match skip_ws rest with
      | EmptyString => Some v
      | String _ _ => None
      end
  | None => None
  end.

End RefJson.

#[export] Instance reference_json : JsonRuntime := {
  JSON_stringify := RefJson.write;
  JSON_parse := RefJson.parse
}.

(** ** Process state and effects *)

(** What the process does that can be observed from outside, in the order
    it does it.  A handler answers with [Respond]; the two other answers are
    Express's own: [RespondStatus n] is what [res.send(n)] gives for a bare
    number [n] (Express 4 takes [n] for the status of the response and its
    reason phrase for the body), [RespondNotFound] is the 404 Express
    answers when no handler takes the request. *)
Inductive event : Type :=
| ConsoleLog (args : list value)
| ConsoleError (args : list value)
| ConsoleDir (v : value)
| FsReadFile (path : string)
| FsWriteFile (path data : string) (mode : Z) (done : bool)
| PlaidCall (operation : string) (request : value)
| Respond (status : Z) (body : value)
| RespondStatus (status : Z)
| RespondNotFound.

(** The module-level variables of [server.js], the one file the server
    touches ([None]: it does not exist) and the trace of events.
    [io_faults] scripts the file system: each [fs] call takes the head;
    [Some code] makes that call fail on opening the file, with the error
    code [code] ([EACCES], [EROFS], ...), which leaves the file as it is;
    [None] (or an exhausted script) lets the call through. *)
Record server : Type := mkServer {
  userRecord : value;
  webhookUrl : value;
  basicLinkTokenObject : value;
  disk : option string;
  io_faults : list (option string);
  trace : list event
}.

Definition set_userRecord (r : value) (s : server) : server :=
  mkServer r (webhookUrl s) (basicLinkTokenObject s) (disk s) (io_faults s) (trace s).

Definition set_webhookUrl (u : value) (s : server) : server :=
  mkServer (userRecord s) u (basicLinkTokenObject s) (disk s) (io_faults s) (trace s).

Definition set_disk (d : option string) (s : server) : server :=
  mkServer (userRecord s) (webhookUrl s) (basicLinkTokenObject s) d (io_faults s) (trace s).

Definition set_io_faults (f : list (option string)) (s : server) : server :=
  mkServer (userRecord s) (webhookUrl s) (basicLinkTokenObject s) (disk s) f (trace s).

Definition emit (e : event) (s : server) : server :=
  mkServer (userRecord s) (webhookUrl s) (basicLinkTokenObject s) (disk s) (io_faults s)
           (trace s ++ [e]).

(** Computations of the server: they read and change the state and either
    return or throw.  A throw keeps the state reached so far. *)
Definition M (A : Type) : Type := server -> result A * server.

Definition ret {A} (a : A) : M A := fun s => (Ok a, s).

Definition throw {A} (e : value) : M A := fun s => (Throw e, s).

Definition bind {A B} (c : M A) (k : A -> M B) : M B :=
  fun s =>
    match c s with
    | (Ok a, s') => k a s'
    | (Throw e, s') => (Throw e, s')
    end.

(** [try { body } catch (error) { handler }] *)
Definition try_catch {A} (body : M A) (handler : value -> M A) : M A :=
  fun s =>
    match body s with
    | (Ok a, s') => (Ok a, s')
    | (Throw e, s') => handler e s'
    end.

Definition lift {A} (r : result A) : M A := fun s => (r, s).

Definition gets {A} (f : server -> A) : M A := fun s => (Ok (f s), s).

Definition modify (f : server -> server) : M unit := fun s => (Ok tt, f s).

Declare Scope js_scope.
Delimit Scope js_scope with js.
Notation "x <- c ;; k" := (bind c (fun x => k))
  (at level 61, c at next level, right associativity) : js_scope.
Notation "c ;; k" := (bind c (fun _ => k))
  (at level 61, right associativity) : js_scope.
Open Scope js_scope.

Definition get (o : value) (k : string) : M value := lift (get_prop o k).

Definition to_string (v : value) : M string := lift (ToString v).

Definition console_log (args : list value) : M unit := modify (emit (ConsoleLog args)).
Definition console_error (args : list value) : M unit := modify (emit (ConsoleError args)).
Definition console_dir (v : value) : M unit := modify (emit (ConsoleDir v)).

(** [res.json(body)]: status 200. *)
Definition res_json (body : value) : M unit := modify (emit (Respond 200 body)).

(** The answer of [res.status(code).send(body)].  Express 4's [send]
    reads a body that is a bare number as the status of the response, which
    overrides [code]; any other body is sent under the status [code]. *)
Definition send_event (code : Z) (body : value) : event :=
  match body with
  | VNum n => RespondStatus n
  | _ => Respond code body
  end.

(** [res.status(code).send(body)] *)
Definition res_status_send (code : Z) (body : value) : M unit :=
  modify (emit (send_event code body)).

(** What Express's [next(error)] takes for an error: a truthy value other
    than the strings ['route'] and ['router'], which leave the route and the
    router. *)
Definition express_error (error : value) : bool :=
  truthy error && negb (strict_eq_str error "route")
               && negb (strict_eq_str error "router").

(** The error a failed [fs] call rejects with. *)
Definition fs_error (code : string) : value :=
  VObj [("code", VStr code); ("syscall", VStr "open")].

Definition take_fault : M (option string) :=
  fun s =>
    match io_faults s with
    | [] => (Ok None, s)
    | f :: rest => (Ok f, set_io_faults rest s)
    end.

(** [fs.readFile(path, {encoding: "utf8"})] *)
Definition fs_readFile (path : string) : M string :=
  modify (emit (FsReadFile path));;
  fault <- take_fault;;
  match fault with
  | Some code => throw (fs_error code)
  | None =>
      content <- gets disk;;
      match content with
      | None => throw (fs_error "ENOENT")
      | Some text => ret text
      end
  end.

(** [fs.writeFile(path, data, {encoding: "utf8", mode})]: [data] must be a
    string; a successful call replaces the whole content. *)
Definition fs_writeFile (path : string) (data : option string) (mode : Z) : M unit :=
  match data with
  | None => throw (type_error "The data argument must be of type string")
  | Some text =>
      fault <- take_fault;;
      match fault with
      | Some code =>
          modify (emit (FsWriteFile path text mode false));;
          throw (fs_error code)
      | None =>
          modify (set_disk (Some text));;
          modify (emit (FsWriteFile path text mode true))
      end
  end.

(** ** The remote client and the clock *)

(** The operations of [plaidClient] the server calls: each resolves with a
    response or rejects with an error. *)
Record PlaidApi : Type := {
  linkTokenCreate : value -> result value;
  itemPublicTokenExchange : value -> result value;
  transactionsGet : value -> result value;
  accountsBalanceGet : value -> result value;
  assetReportCreate : value -> result value;
  sandboxItemFireWebhook : value -> result value;
  itemWebhookUpdate : value -> result value
}.

(** What a request handler takes from outside the process: the remote
    client as it answers during this request, today's date and the date
    thirty days back as [moment] formats them, and the [plaid] package's
    [SandboxItemFireWebhookRequestWebhookCodeEnum.AuthDataUpdate]. *)
Record Env : Type := {
  plaidClient : PlaidApi;
  moment_today : string;
  moment_30_days_ago : string;
  AuthDataUpdate : value
}.

Definition plaid_call (operation : string) (f : value -> result value) (request : value)
  : M value :=
  modify (emit (PlaidCall operation request));;
  lift (f request).

(** Modelled from the spec: the constants of the [plaid] package's
    [WebhookType] (the three recognised product types [ITEM],
    [TRANSACTIONS], [ASSETS]), which [server.js] imports. *)
Definition WebhookType_Item : string := "ITEM".
Definition WebhookType_Transactions : string := "TRANSACTIONS".
Definition WebhookType_Assets : string := "ASSETS".

(** ** server.js *)

Definition USER_DATA_FILE : string := "user_data.json".
Definition FIELD_ACCESS_TOKEN : string := "accessToken".
Definition FIELD_USER_STATUS : string := "userStatus".

(** [process.env.WEBHOOK_URL || "https://www.example.com/server/plaid_webhook"] *)
Definition initial_webhookUrl (env_WEBHOOK_URL : option string) : value :=
  let v := match env_WEBHOOK_URL with Some u => VStr u | None => VUndefined end in
  if truthy v then v else VStr "https://www.example.com/server/plaid_webhook".

Definition make_basicLinkTokenObject (webhook : value) : value :=
  VObj [("user", VObj [("client_user_id", VStr "testUser")]);
        ("client_name", VStr "Webhook Test App");
        ("language", VStr "en");
        ("products", VArr [VStr "transactions"; VStr "assets"] []);
        ("country_codes", VArr [VStr "US"] []);
        ("webhook", webhook)].

(** The process as the module body leaves it before the start-up read:
    [userRecord] is still [undefined]. *)
Definition boot (env_WEBHOOK_URL : option string) (store : option string)
    (faults : list (option string)) : server :=
  let url := initial_webhookUrl env_WEBHOOK_URL in
  mkServer VUndefined url (make_basicLinkTokenObject url) store faults [].

Section Server.

Context `{JsonRuntime}.

Definition getUserRecord : M value :=
  try_catch
    (userData <- fs_readFile USER_DATA_FILE;;
     userDataObj <- match JSON_parse userData with
                    | Some v => ret v
                    | None => throw (syntax_error userData)
                    end;;
     console_log [VStr ("Retrieved userData " ++ userData)];;
     ret userDataObj)
    (fun error =>
       code <- get error "code";;
       if strict_eq_str code "ENOENT" then
         console_log [VStr "No user object found. We'll make one from scratch."];;
         ret VNull
       else
         console_log [VStr "Got an error"; error];;
         ret VNull).

(** The start-up block: [userRecord = await getUserRecord()], then the
    default record when nothing was loaded. *)
Definition startup : M unit :=
  loaded <- getUserRecord;;
  modify (set_userRecord loaded);;
  r <- gets userRecord;;
  if is_nullish r then
    modify (set_userRecord (VObj []));;
    r0 <- gets userRecord;;
    r1 <- lift (set_prop r0 FIELD_ACCESS_TOKEN VNull);;
    modify (set_userRecord r1);;
    r2 <- lift (set_prop r1 FIELD_USER_STATUS (VStr "disconnected"));;
    modify (set_userRecord r2)
  else ret tt.

Definition updateUserRecord (key : string) (val : value) : M unit :=
  r <- gets userRecord;;
  r' <- lift (set_prop r key val);;
  modify (set_userRecord r');;
  try_catch
    (record <- gets userRecord;;
     let dataToWrite := JSON_stringify record in
     fs_writeFile USER_DATA_FILE dataToWrite 384;;
     shown <- to_string (match dataToWrite with Some t => VStr t | None => VUndefined end);;
     console_log [VStr ("User record " ++ shown ++ " written to file.")])
    (fun error => console_log [VStr "Got an error: "; error]).

Definition errorHandler (err : value) : M unit :=
  console_error [VStr "Your error:"];;
  console_error [err];;
  response <- get err "response";;
  data <- lift (get_prop_opt response "data");;
  if negb (is_nullish data) then
    response' <- get err "response";;
    data' <- get response' "data";;
    res_status_send 500 data'
  else
    res_status_send 500
      (VObj [("error_code", VStr "OTHER_ERROR");
             ("error_message", VStr "I got some other message on the server.")]).

(** [next(error)]: Express passes what it takes for an error to the
    error-handling middleware, of which [errorHandler] is the only one.
    With any other value it goes on to the handlers that follow the route;
    there is none ([errorHandler], with its four parameters, is skipped), so
    Express answers 404 itself. *)
Definition next (error : value) : M unit :=
  if express_error error then errorHandler error
  else modify (emit RespondNotFound).

Definition get_user_info : M unit :=
  try_catch
    (r <- gets userRecord;;
     status <- get r FIELD_USER_STATUS;;
     res_json (VObj [("user_status", status)]))
    next.

Definition generate_link_token (env : Env) : M unit :=
  try_catch
    (config <- gets basicLinkTokenObject;;
     response <- plaid_call "linkTokenCreate" (linkTokenCreate (plaidClient env)) config;;
     console_log [config];;
     data <- get response "data";;
     res_json data)
    (fun error =>
       console_log [VStr "Running into an error!"];;
       next error).

Definition swap_public_token (env : Env) (req_body : value) : M unit :=
  try_catch
    (public_token <- get req_body "public_token";;
     response <- plaid_call "itemPublicTokenExchange"
                   (itemPublicTokenExchange (plaidClient env))
                   (VObj [("public_token", public_token)]);;
     data <- get response "data";;
     shown <- to_string (match JSON_stringify data with
                         | Some t => VStr t
                         | None => VUndefined
                         end);;
     console_log [VStr ("You got back " ++ shown)];;
     data1 <- get response "data";;
     access_token <- get data1 "access_token";;
     updateUserRecord FIELD_ACCESS_TOKEN access_token;;
     updateUserRecord FIELD_USER_STATUS (VStr "connected");;
     res_json (VObj [("status", VStr "success")]))
    next.

Definition transactions (env : Env) : M unit :=
  try_catch
    (r <- gets userRecord;;
     access_token <- get r FIELD_ACCESS_TOKEN;;
     let startDate := moment_30_days_ago env in
     let endDate := moment_today env in
     transactionResponse <- plaid_call "transactionsGet" (transactionsGet (plaidClient env))
       (VObj [("access_token", access_token);
              ("start_date", VStr startDate);
              ("end_date", VStr endDate);
              ("options", VObj [("count", VNum 10)])]);;
     data <- get transactionResponse "data";;
     res_json data)
    next.

Definition balances (env : Env) : M unit :=
  try_catch
    (r <- gets userRecord;;
     access_token <- get r FIELD_ACCESS_TOKEN;;
     balanceResponse <- plaid_call "accountsBalanceGet" (accountsBalanceGet (plaidClient env))
       (VObj [("access_token", access_token);
              ("options", VObj [("min_last_updated_datetime", VStr "2020-01-01T00:00:00Z")])]);;
     data <- get balanceResponse "data";;
     res_json data)
    next.

Definition create_asset_report (env : Env) : M unit :=
  try_catch
    (r <- gets userRecord;;
     access_token <- get r FIELD_ACCESS_TOKEN;;
     url <- gets webhookUrl;;
     reportResponse <- plaid_call "assetReportCreate" (assetReportCreate (plaidClient env))
       (VObj [("access_tokens", VArr [access_token] []);
              ("days_requested", VNum 30);
              ("options", VObj [("user", VObj [("first_name", VStr "Jane");
                                               ("last_name", VStr "Foster")]);
                                ("webhook", url)])]);;
     data <- get reportResponse "data";;
     res_json data)
    next.

Definition fire_test_webhook (env : Env) : M unit :=
  try_catch
    (r <- gets userRecord;;
     access_token <- get r FIELD_ACCESS_TOKEN;;
     fireTestWebhook <- plaid_call "sandboxItemFireWebhook"
       (sandboxItemFireWebhook (plaidClient env))
       (VObj [("access_token", access_token);
              ("webhook_type", VStr WebhookType_Item);
              ("webhook_code", AuthDataUpdate env)]);;
     data <- get fireTestWebhook "data";;
     res_json data)
    next.

Definition update_webhook (env : Env) (req_body : value) : M unit :=
  try_catch
    (newUrl <- get req_body "newUrl";;
     modify (set_webhookUrl newUrl);;
     r <- gets userRecord;;
     access_token <- get r FIELD_ACCESS_TOKEN;;
     url <- gets webhookUrl;;
     updateWebhook <- plaid_call "itemWebhookUpdate" (itemWebhookUpdate (plaidClient env))
       (VObj [("access_token", access_token); ("webhook", url)]);;
     data <- get updateWebhook "data";;
     res_json data)
    next.

Definition handleItemWebhook (code requestBody : value) : M unit :=
  if strict_eq_str code "ERROR" then
    error <- get requestBody "error";;
    error_message <- get error "error_message";;
    shown <- to_string error_message;;
    console_log [VStr ("I received this error: " ++ shown ++
                       "| should probably ask this user to connect to their bank")]
  else if strict_eq_str code "NEW_ACCOUNTS_AVAILABLE" then
    item_id <- get requestBody "item_id";;
    shown <- to_string item_id;;
    console_log [VStr ("There are new accounts available at this Financial Institution! (Id: "
                       ++ shown ++ ") We might want to ask the user to share them with us")]
  else if strict_eq_str code "PENDING_EXPIRATION" then
    console_log [VStr "We should tell our user to reconnect their bank with Plaid so there's no disruption to their service"]
  else if strict_eq_str code "USER_PERMISSION_REVOKED" then
    console_log [VStr "The user revoked access to this item. We should remove it from our records"]
  else if strict_eq_str code "WEBHOOK_UPDATE_ACKNOWLEDGED" then
    console_log [VStr "Hooray! You found the right spot!"]
  else
    shown <- to_string code;;
    console_log [VStr ("Can't handle webhook code " ++ shown)].

Definition handleTransactionsWebhook (code requestBody : value) : M unit :=
  if strict_eq_str code "INITIAL_UPDATE" then
    new_transactions <- get requestBody "new_transactions";;
    shown <- to_string new_transactions;;
    console_log [VStr ("First patch of transactions are done. There's " ++ shown ++ " available")]
  else if strict_eq_str code "HISTORICAL_UPDATE" then
    new_transactions <- get requestBody "new_transactions";;
    shown <- to_string new_transactions;;
    console_log [VStr ("Historical transactions are done. There's " ++ shown ++ " available")]
  else if strict_eq_str code "DEFAULT_UPDATE" then
    new_transactions <- get requestBody "new_transactions";;
    shown <- to_string new_transactions;;
    console_log [VStr ("New data is here! There's " ++ shown ++ " available")]
  else if strict_eq_str code "TRANSACTIONS_REMOVED" then
    console_log [VStr "Looks like a few transactions have been reversed and should be removed from our records"]
  else if strict_eq_str code "SYNC_UPDATES_AVAILABLE" then
    console_log [VStr "There are new updates available for the Transactions Sync API"]
  else
    shown <- to_string code;;
    console_log [VStr ("Can't handle webhook code " ++ shown)].

Definition handleAssetsWebhook (code requestBody : value) : M unit :=
  if strict_eq_str code "PRODUCT_READY" then
    asset_report_id <- get requestBody "asset_report_id";;
    shown <- to_string asset_report_id;;
    console_log [VStr ("Looks like asset report " ++ shown ++ " is ready to download")]
  else if strict_eq_str code "ERROR" then
    error <- get requestBody "error";;
    error_message <- get error "error_message";;
    shown <- to_string error_message;;
    console_log [VStr ("I had an error generating this report: " ++ shown)]
  else
    shown <- to_string code;;
    console_log [VStr ("Can't handle webhook code " ++ shown)].

Definition receive_webhook (req_body : value) : M unit :=
  try_catch
    (console_log [VStr "this is the webhook response"];;
     console_dir req_body;;
     product <- get req_body "webhook_type";;
     code <- get req_body "webhook_code";;
     (if strict_eq_str product WebhookType_Item then handleItemWebhook code req_body
      else if strict_eq_str product WebhookType_Transactions
      then handleTransactionsWebhook code req_body
      else if strict_eq_str product WebhookType_Assets then handleAssetsWebhook code req_body
      else
        shown <- to_string product;;
        console_log [VStr ("Can't handle webhook product " ++ shown)]);;
     res_json (VObj [("status", VStr "received")]))
    next.

(** The routes of the application. *)
Inductive request : Type :=
| GET_get_user_info
| POST_generate_link_token
| POST_swap_public_token (req_body : value)
| GET_transactions
| GET_balances
| GET_create_asset_report
| POST_fire_test_webhook
| POST_update_webhook (req_body : value)
| POST_receive_webhook (req_body : value).

Definition handle (env : Env) (rq : request) : M unit :=
  match rq with
  | GET_get_user_info => get_user_info
  | POST_generate_link_token => generate_link_token env
  | POST_swap_public_token b => swap_public_token env b
  | GET_transactions => transactions env
  | GET_balances => balances env
  | GET_create_asset_report => create_asset_report env
  | POST_fire_test_webhook => fire_test_webhook env
  | POST_update_webhook b => update_webhook env b
  | POST_receive_webhook b => receive_webhook b
  end.

End Server.

(** ** Sample environments and scenarios *)

(** A remote error as the client reports it: the structured error of the
    service under [response.data]. *)
Definition remote_error (error_code error_message : string) : value :=
  VObj [("message", VStr "Request failed with status code 400");
        ("response",
         VObj [("status", VNum 400);
               ("data", VObj [("error_code", VStr error_code);
                              ("error_message", VStr error_message)])])].

Definition resolves_with (data : value) : value -> result value :=
  fun _ => Ok (VObj [("status", VNum 200); ("data", data)]).

Definition rejects_with (err : value) : value -> result value :=
  fun _ => Throw err.

(** A remote service on which every operation succeeds; the exchange
    returns the access token [access-sandbox-1]. *)
Definition sandbox_plaid : PlaidApi := {|
  linkTokenCreate := resolves_with (VObj [("link_token", VStr "link-sandbox-1")]);
  itemPublicTokenExchange :=
    resolves_with (VObj [("access_token", VStr "access-sandbox-1");
                         ("item_id", VStr "item-1")]);
  transactionsGet := resolves_with (VObj [("transactions", VArr [] [])]);
  accountsBalanceGet := resolves_with (VObj [("accounts", VArr [] [])]);
  assetReportCreate := resolves_with (VObj [("asset_report_id", VStr "report-1")]);
  sandboxItemFireWebhook := resolves_with (VObj [("webhook_fired", VBool true)]);
  itemWebhookUpdate := resolves_with (VObj [("item", VObj [])])
|}.

Definition login_required : value :=
  remote_error "ITEM_LOGIN_REQUIRED" "the login details have changed".

(** A remote service on which every operation fails with
    [ITEM_LOGIN_REQUIRED]. *)
Definition failing_plaid : PlaidApi := {|
  linkTokenCreate := rejects_with login_required;
  itemPublicTokenExchange := rejects_with login_required;
  transactionsGet := rejects_with login_required;
  accountsBalanceGet := rejects_with login_required;
  assetReportCreate := rejects_with login_required;
  sandboxItemFireWebhook := rejects_with login_required;
  itemWebhookUpdate := rejects_with login_required
|}.

Definition env_of (p : PlaidApi) : Env := {|
  plaidClient := p;
  moment_today := "2024-03-31";
  moment_30_days_ago := "2024-03-01";
  AuthDataUpdate := VStr "AUTH_DATA_UPDATE"
|}.

(** The text [JSON.stringify] writes for a value (empty when it answers
    [undefined]). *)
Definition serialized `{JsonRuntime} (v : value) : string :=
  match JSON_stringify v with
  | Some text => text
  | None => ""
  end.

(** The state a computation leaves. *)
Definition exec {A} (c : M A) (s : server) : server := snd (c s).

(** The process after a first start: no store, no file-system fault. *)
Definition fresh : server := exec startup (boot None None []).

(** The same process on a file system that refuses the next two calls. *)
Definition fresh_read_only : server :=
  set_io_faults [Some "EACCES"; Some "EACCES"] fresh.

Definition public_xyz : value := VObj [("public_token", VStr "public-xyz")].

(** The process after a first start and one successful exchange. *)
Definition linked : server :=
  exec (swap_public_token (env_of sandbox_plaid) public_xyz) fresh.

Definition webhook (webhook_type webhook_code : string) (payload : list (string * value))
  : value :=
  VObj (("webhook_type", VStr webhook_type) :: ("webhook_code", VStr webhook_code) :: payload).

(** ** Vocabulary of the properties *)

(** [status == connected] and [accessToken != null] on a record. *)
Definition connected (r : value) : bool :=
  match get_prop r FIELD_USER_STATUS with
  | Ok v => strict_eq_str v "connected"
  | Throw _ => false
  end.

Definition has_token (r : value) : bool :=
  match get_prop r FIELD_ACCESS_TOKEN with
  | Ok v => negb (is_nullish v)
  | Throw _ => false
  end.

(** The invariant of the connection record. *)
Definition consistent (r : value) : Prop :=
  connected r = true <-> has_token r = true.

Definition default_record : value :=
  VObj [(FIELD_ACCESS_TOKEN, VNull); (FIELD_USER_STATUS, VStr "disconnected")].

Definition status_success : value := VObj [("status", VStr "success")].

Definition status_received : value := VObj [("status", VStr "received")].

Definition other_error : value :=
  VObj [("error_code", VStr "OTHER_ERROR");
        ("error_message", VStr "I got some other message on the server.")].

(** [o.k], [undefined] where reading it would throw. *)
Definition field (o : value) (k : string) : value :=
  match get_prop o k with
  | Ok v => v
  | Throw _ => VUndefined
  end.

(** [err.response?.data] *)
Definition nested_data (err : value) : value :=
  if is_nullish (field err "response") then VUndefined
  else field (field err "response") "data".

(** The body the error responder hands to [res.send] for [err]. *)
Definition error_body (err : value) : value :=
  if is_nullish (nested_data err) then other_error else nested_data err.

(** [typeof v === 'number'] *)
Definition is_number (v : value) : bool :=
  match v with
  | VNum _ => true
  | _ => false
  end.

(** The state [s] with the events [evs] added to its trace. *)
Definition appends (evs : list event) (s : server) : server :=
  mkServer (userRecord s) (webhookUrl s) (basicLinkTokenObject s) (disk s) (io_faults s)
           (trace s ++ evs).

(** The outcome scripted for the [n]-th coming [fs] call. *)
Definition fault_at (n : nat) (s : server) : option string :=
  nth n (io_faults s) None.

(** What one save leaves in the trace: the write and the line logged
    after it, by the outcome of the write. *)
Definition save_events (text : string) (fault : option string) : list event :=
  match fault with
  | None =>
      [FsWriteFile USER_DATA_FILE text 384 true;
       ConsoleLog [VStr ("User record " ++ text ++ " written to file.")]]
  | Some code =>
      [FsWriteFile USER_DATA_FILE text 384 false;
       ConsoleLog [VStr "Got an error: "; fs_error code]]
  end.

(** An event that neither touches the file nor calls the remote service. *)
Definition is_output (e : event) : bool :=
  match e with
  | ConsoleLog _ | ConsoleError _ | ConsoleDir _
  | Respond _ _ | RespondStatus _ | RespondNotFound => true
  | FsReadFile _ | FsWriteFile _ _ _ _ | PlaidCall _ _ => false
  end.

Definition is_console (e : event) : bool :=
  match e with
  | ConsoleLog _ | ConsoleError _ | ConsoleDir _ => true
  | FsReadFile _ | FsWriteFile _ _ _ _ | PlaidCall _ _
  | Respond _ _ | RespondStatus _ | RespondNotFound => false
  end.

(** A computation that does nothing but emit events accepted by [p]: its
    result and its events are the same from every state, and it leaves the
    rest of the state as it found it. *)
Definition emits_only {A} (p : event -> bool) (c : M A) : Prop :=
  exists r evs, forallb p evs = true /\ forall s, c s = (r, appends evs s).

(** A computation that logs one line and returns. *)
Definition logs_one_line (c : M unit) : Prop :=
  exists line, forall s, c s = (Ok tt, appends [ConsoleLog [VStr line]] s).

(** A computation that keeps the relation [R] between the state it starts
    from and the state it leaves, whether it returns or throws. *)
Definition keeps {A} (R : server -> server -> Prop) (c : M A) : Prop :=
  forall s, R s (snd (c s)).

(** The record in memory is the same. *)
Definition same_record (s s' : server) : Prop := userRecord s' = userRecord s.

Definition prints (v : value) : bool :=
  match ToString v with
  | Ok _ => true
  | Throw _ => false
  end.

(** The [case] labels of the three product handlers. *)
Definition item_codes : list string :=
  ["ERROR"; "NEW_ACCOUNTS_AVAILABLE"; "PENDING_EXPIRATION"; "USER_PERMISSION_REVOKED";
   "WEBHOOK_UPDATE_ACKNOWLEDGED"].

Definition transactions_codes : list string :=
  ["INITIAL_UPDATE"; "HISTORICAL_UPDATE"; "DEFAULT_UPDATE"; "TRANSACTIONS_REMOVED";
   "SYNC_UPDATES_AVAILABLE"].

Definition assets_codes : list string := ["PRODUCT_READY"; "ERROR"].

(** The product type and the code are ones the dispatcher has a case for. *)
Definition recognised (product code : value) : bool :=
  (strict_eq_str product WebhookType_Item && existsb (strict_eq_str code) item_codes)
  || (strict_eq_str product WebhookType_Transactions
      && existsb (strict_eq_str code) transactions_codes)
  || (strict_eq_str product WebhookType_Assets && existsb (strict_eq_str code) assets_codes).

(** The payload fields the handlers interpolate in their log lines convert
    to strings, and an [ERROR] event carries its [error] object. *)
Definition payload_prints (body : value) : bool :=
  prints (field body "item_id")
  && prints (field body "new_transactions")
  && prints (field body "asset_report_id")
  && (if strict_eq_str (field body "webhook_code") "ERROR"
      then negb (is_nullish (field body "error"))
           && prints (field (field body "error") "error_message")
      else true).

(** A webhook body the dispatch can print: an object whose product type
    and code convert to strings (every string, number, boolean and absent
    field does) and, when the dispatcher has a case for them, whose payload
    prints. *)
Definition printable_event (body : value) : bool :=
  negb (is_nullish body)
  && prints (field body "webhook_type")
  && prints (field body "webhook_code")
  && (negb (recognised (field body "webhook_type") (field body "webhook_code"))
      || payload_prints body).

(** A successful exchange carries a string access token. *)
Definition exchange_returns_token (p : PlaidApi) : Prop :=
  forall request response,
    itemPublicTokenExchange p request = Ok response ->
    exists data token,
      get_prop response "data" = Ok data /\
      get_prop data "access_token" = Ok (VStr token).

(** The store a start-up may find without breaking the invariant: none,
    an unparsable one, or one that holds a record satisfying it. *)
Definition store_consistent `{JsonRuntime} (store : option string) : Prop :=
  match store with
  | None => True
  | Some text =>
      match JSON_parse text with
      | None => True
      | Some r => consistent r
      end
  end.

(** The states the process is in between two requests, each handler run
    to its end before the next starts. *)
Inductive reachable `{JsonRuntime} : server -> Prop :=
| reach_startup : forall url store faults,
    store_consistent store ->
    reachable (exec startup (boot url store faults))
| reach_request : forall env rq s,
    exchange_returns_token (plaidClient env) ->
    reachable s ->
    reachable (exec (handle env rq) s).

(** ** Vocabulary of the further properties *)

(** The states the process goes through from [s0] on, one request after
    the other, whatever the remote service answers. *)
Inductive serves `{JsonRuntime} (s0 : server) : server -> Prop :=
| serves_start : serves s0 s0
| serves_request : forall env rq s,
    serves s0 s -> serves s0 (exec (handle env rq) s).

(** A relation between the state a computation starts from and the state
    it leaves that computations can be chained under. *)
Class Frame (R : server -> server -> Prop) : Prop := {
  frame_refl : forall s, R s s;
  frame_trans : forall s1 s2 s3, R s1 s2 -> R s2 s3 -> R s1 s3
}.

(** The two states agree on what [f] reads of them. *)
Definition same_on {B} (f : server -> B) (s s' : server) : Prop := f s' = f s.

(** The second state is the first with more events, all accepted by [p];
    the other fields are free. *)
Definition extends (p : event -> bool) (s s' : server) : Prop :=
  exists evs, trace s' = (trace s ++ evs)%list /\ forallb p evs = true.

Definition is_respond (e : event) : bool :=
  match e with
  | Respond _ _ | RespondStatus _ | RespondNotFound => true
  | _ => false
  end.

(** The HTTP responses among some events. *)
Definition responses (evs : list event) : list event := filter is_respond evs.

Definition no_response (e : event) : bool := negb (is_respond e).

(** The file-system events a request may cause: no read, and writes to
    [user_data.json] with mode [0o600] only. *)
Definition private_write (e : event) : bool :=
  match e with
  | FsReadFile _ => false
  | FsWriteFile path _ mode _ => String.eqb path USER_DATA_FILE && Z.eqb mode 384
  | _ => true
  end.

(** An error the error responder reports under the status 500: Express
    takes it for an error, and the data nested in it, if any, is not a bare
    number. *)
Definition reported_error (e : value) : bool :=
  express_error e && negb (is_number (nested_data e)).

(** The exceptions a computation throws are errors of that kind. *)
Definition throws_errors {A} (c : M A) : Prop :=
  forall s e, fst (c s) = Throw e -> reported_error e = true.

(** A computation that sends no response and throws error values only. *)
Definition silent {A} (c : M A) : Prop :=
  keeps (extends no_response) c /\ throws_errors c.

(** The body of a route handler: it returns after one response, of status
    200, or throws an error value before any response. *)
Definition answers (c : M unit) : Prop :=
  forall s, exists evs,
    trace (snd (c s)) = (trace s ++ evs)%list /\
    match fst (c s) with
    | Ok _ => exists body, responses evs = [Respond 200 body]
    | Throw e => responses evs = [] /\ reported_error e = true
    end.

(** A route handler as Express runs it: it returns, and one response
    went out, of status 200 or 500. *)
Definition replies (c : M unit) : Prop :=
  forall s,
    fst (c s) = Ok tt /\
    exists evs status body,
      trace (snd (c s)) = (trace s ++ evs)%list /\
      responses evs = [Respond status body] /\
      (status = 200 \/ status = 500)%Z.

(** A rejected remote call rejects with an error the error responder
    reports under the status 500, as the client's own errors are: objects,
    whose nested data, when the service answered, is the structured report
    of the service. *)
Definition rejects_errors (f : value -> result value) : Prop :=
  forall request e, f request = Throw e -> reported_error e = true.

Definition client_rejects_errors (p : PlaidApi) : Prop :=
  rejects_errors (linkTokenCreate p) /\
  rejects_errors (itemPublicTokenExchange p) /\
  rejects_errors (transactionsGet p) /\
  rejects_errors (accountsBalanceGet p) /\
  rejects_errors (assetReportCreate p) /\
  rejects_errors (sandboxItemFireWebhook p) /\
  rejects_errors (itemWebhookUpdate p).

(** A product handler either logs one line and returns, or throws a
    [TypeError] before it logs anything. *)
Definition logs_or_throws (c : M unit) : Prop :=
  logs_one_line c \/ exists msg, forall s, c s = (Throw (type_error msg), s).

(** The route is the token exchange. *)
Definition is_exchange (rq : request) : bool :=
  match rq with
  | POST_swap_public_token _ => true
  | _ => false
  end.

(** The value [getUserRecord] resolves with, read off the file system. *)
Definition loaded `{JsonRuntime} (s : server) : value :=
  match fault_at 0 s, disk s with
  | None, Some text =>
      match JSON_parse text with
      | Some v => v
      | None => VNull
      end
  | _, _ => VNull
  end.

(** ** Properties *)

(** *** Objects and traces *)

Lemma lookup_assign_same k v ps : lookup k (assign k v ps) = Some v.
Proof.
  induction ps as [|[k' v'] rest IH]; simpl.
  - now rewrite String.eqb_refl.
  - destruct (String.eqb k' k) eqn:E; simpl.
    + now rewrite String.eqb_refl.
    + now rewrite E.
Qed.

Lemma lookup_assign_other k k' v ps :
  String.eqb k k' = false -> lookup k' (assign k v ps) = lookup k' ps.
Proof.
  intros Hne. induction ps as [|[k0 v0] rest IH]; simpl.
  - now rewrite Hne.
  - destruct (String.eqb k0 k) eqn:E; simpl.
    + apply String.eqb_eq in E. subst k0. now rewrite Hne.
    + now rewrite IH.
Qed.

Lemma get_set_same o k v o' : set_prop o k v = Ok o' -> get_prop o' k = Ok v.
Proof.
  destruct o; simpl; intros E; inversion E; subst; simpl;
    now rewrite lookup_assign_same.
Qed.

Lemma get_set_other o k k' v o' :
  String.eqb k k' = false -> set_prop o k v = Ok o' -> get_prop o' k' = get_prop o k'.
Proof.
  intros Hne. destruct o; simpl; intros E; inversion E; subst; simpl;
    now rewrite lookup_assign_other.
Qed.

Lemma set_prop_again o k v r k' v' :
  set_prop o k v = Ok r -> exists r', set_prop r k' v' = Ok r'.
Proof.
  destruct o; simpl; intros E; inversion E; subst; simpl; eauto.
Qed.

Lemma set_prop_not_nullish o k v r : set_prop o k v = Ok r -> is_nullish r = false.
Proof.
  destruct o; simpl; intros E; inversion E; reflexivity.
Qed.

Lemma get_prop_field o k : is_nullish o = false -> get_prop o k = Ok (field o k).
Proof. destruct o; simpl; intros E; try discriminate E; reflexivity. Qed.

Lemma get_prop_opt_field o k :
  get_prop_opt o k = Ok (if is_nullish o then VUndefined else field o k).
Proof. destruct o; reflexivity. Qed.

Lemma prints_ToString v : prints v = true -> exists t, ToString v = Ok t.
Proof. unfold prints. destruct (ToString v) as [t|e]; [eauto | discriminate]. Qed.

Lemma appends_nil s : appends [] s = s.
Proof. destruct s; unfold appends; simpl. now rewrite app_nil_r. Qed.

Lemma appends_appends evs1 evs2 s :
  appends evs2 (appends evs1 s) = appends (evs1 ++ evs2) s.
Proof. unfold appends; simpl. now rewrite app_assoc. Qed.

Lemma emit_appends e s : emit e s = appends [e] s.
Proof. reflexivity. Qed.

(** Unfolds the monad and the primitive effects, then computes. *)
Ltac run :=
  cbv [exec startup getUserRecord updateUserRecord
       bind try_catch ret throw lift gets modify get to_string
       console_log console_error console_dir res_json res_status_send
       fs_readFile fs_writeFile take_fault plaid_call];
  cbn.

(** Gathers the events emitted one by one into a single [appends]. *)
Ltac gather := rewrite ?emit_appends, ?appends_appends; simpl app.

(** *** The error responder *)

Lemma errorHandler_run err s :
  is_nullish err = false ->
  errorHandler err s =
    (Ok tt,
     appends [ConsoleError [VStr "Your error:"];
              ConsoleError [err];
              send_event 500 (error_body err)] s).
Proof.
  intros Hnn. unfold error_body, nested_data, errorHandler.
  cbv [bind get lift console_error modify res_status_send].
  rewrite (get_prop_field _ _ Hnn), get_prop_opt_field.
  destruct (is_nullish (field err "response")) eqn:Hr; simpl.
  - now gather.
  - destruct (is_nullish (field (field err "response") "data")) eqn:Hd; simpl.
    + now gather.
    + rewrite (get_prop_field _ _ Hr). now gather.
Qed.

(** A body that is not a bare number is sent under the status asked for. *)
Lemma send_event_structured code body :
  is_number body = false -> send_event code body = Respond code body.
Proof. now destruct body. Qed.

Lemma error_body_structured err :
  is_number (nested_data err) = false -> is_number (error_body err) = false.
Proof. intros Hdata. unfold error_body. now destruct (is_nullish (nested_data err)). Qed.

(** What Express takes for an error is neither [null] nor [undefined]. *)
Lemma express_error_not_nullish err : express_error err = true -> is_nullish err = false.
Proof. now destruct err. Qed.

(** [next] with such an error whose nested data is no bare number: the
    error responder answers 500. *)
Lemma next_run err s :
  express_error err = true ->
  is_number (nested_data err) = false ->
  next err s =
    (Ok tt,
     appends [ConsoleError [VStr "Your error:"];
              ConsoleError [err];
              Respond 500 (error_body err)] s).
Proof.
  intros Herr Hdata. unfold next. rewrite Herr.
  rewrite (errorHandler_run _ _ (express_error_not_nullish _ Herr)).
  now rewrite (send_event_structured _ _ (error_body_structured _ Hdata)).
Qed.

(** [next] always returns, having only printed and answered; the events
    are those of the error responder for what Express takes for an error. *)
Lemma next_returns err :
  exists evs,
    forallb is_output evs = true /\
    (forall s, next err s = (Ok tt, appends evs s)) /\
    (express_error err = true ->
     is_number (nested_data err) = false ->
     evs = [ConsoleError [VStr "Your error:"];
            ConsoleError [err];
            Respond 500 (error_body err)]).
Proof.
  unfold next. destruct (express_error err) eqn:Herr.
  - exists [ConsoleError [VStr "Your error:"]; ConsoleError [err];
            send_event 500 (error_body err)].
    split; [simpl; now destruct (error_body err)|].
    split; [intros s; apply errorHandler_run, express_error_not_nullish, Herr|].
    intros _ Hdata.
    now rewrite (send_event_structured _ _ (error_body_structured _ Hdata)).
  - exists [RespondNotFound].
    split; [reflexivity|]. split; [|discriminate].
    intros s. cbv [modify]. now gather.
Qed.

(** The runtime's own [TypeError]s are such errors. *)
Lemma next_type_error msg s :
  next (type_error msg) s =
    (Ok tt,
     appends [ConsoleError [VStr "Your error:"];
              ConsoleError [type_error msg];
              Respond 500 other_error] s).
Proof. now rewrite next_run by reflexivity. Qed.

(** C4.  For every error that reaches [errorHandler] (Express hands it no
    [null] or [undefined]) and whose nested [err.response.data] is a
    structure, not a bare number (which [res.send] would read as the status
    of the response), the response has status 500; its body is the nested
    [err.response.data], as it is, when the error carries one, and the
    generic [OTHER_ERROR] payload otherwise.  Nothing but the two console
    lines and the response happens. *)
Theorem errorHandler_relays_nested_data err s :
  is_nullish err = false ->
  is_number (nested_data err) = false ->
  errorHandler err s =
    (Ok tt,
     appends [ConsoleError [VStr "Your error:"];
              ConsoleError [err];
              Respond 500 (if is_nullish (nested_data err)
                           then other_error
                           else nested_data err)] s).
Proof.
  intros Hnn Hdata. rewrite (errorHandler_run _ _ Hnn).
  now rewrite (send_event_structured _ _ (error_body_structured _ Hdata)).
Qed.

(** Scenario E: [ITEM_LOGIN_REQUIRED] from the remote service. *)
Lemma errorHandler_relays_nested_data_witness :
  is_nullish login_required = false /\
  is_number (nested_data login_required) = false /\
  errorHandler login_required fresh =
    (Ok tt,
     appends [ConsoleError [VStr "Your error:"];
              ConsoleError [login_required];
              Respond 500
                (VObj [("error_code", VStr "ITEM_LOGIN_REQUIRED");
                       ("error_message", VStr "the login details have changed")])]
       fresh).
Proof.
  split; [reflexivity|]. split; [reflexivity|].
  exact (errorHandler_relays_nested_data login_required fresh eq_refl eq_refl).
Defined.

(** A bare number for nested data is read by [res.send] as the status. *)
Lemma numeric_data_sets_status :
  errorHandler (VObj [("response", VObj [("data", VNum 404)])]) fresh =
    (Ok tt,
     appends [ConsoleError [VStr "Your error:"];
              ConsoleError [VObj [("response", VObj [("data", VNum 404)])]];
              RespondStatus 404] fresh).
Proof. reflexivity. Qed.

(** A falsy value and ['route'] are no errors to Express: the error
    responder is not run. *)
Lemma falsy_rejection_gets_404 :
  next (VNum 0) fresh = (Ok tt, appends [RespondNotFound] fresh) /\
  next (VStr "route") fresh = (Ok tt, appends [RespondNotFound] fresh).
Proof. split; reflexivity. Qed.

#[local] Arguments errorHandler : simpl never.
#[local] Arguments next : simpl never.

(** *** Computations that only emit events *)

Section EmitsOnly.

Variable p : event -> bool.

Lemma emits_only_ret {A} (a : A) : emits_only p (ret a).
Proof. exists (Ok a), []. split; [reflexivity|]. intros s. now rewrite appends_nil. Qed.

Lemma emits_only_lift {A} (r : result A) : emits_only p (lift r).
Proof. exists r, []. split; [reflexivity|]. intros s. now rewrite appends_nil. Qed.

Lemma emits_only_throw {A} e : emits_only p (@throw A e).
Proof. exists (Throw e), []. split; [reflexivity|]. intros s. now rewrite appends_nil. Qed.

Lemma emits_only_emit e : p e = true -> emits_only p (modify (emit e)).
Proof.
  intros He. exists (Ok tt), [e]. split; [simpl; now rewrite He|]. reflexivity.
Qed.

Lemma emits_only_bind {A B} (c : M A) (k : A -> M B) :
  emits_only p c -> (forall a, emits_only p (k a)) -> emits_only p (bind c k).
Proof.
  intros (r & evs & Hevs & Hc) Hk. destruct r as [a|e].
  - destruct (Hk a) as (r' & evs' & Hevs' & Hka).
    exists r', (evs ++ evs')%list. split.
    + now rewrite forallb_app, Hevs, Hevs'.
    + intros s. unfold bind. now rewrite Hc, Hka, appends_appends.
  - exists (Throw e), evs. split; [assumption|].
    intros s. unfold bind. now rewrite Hc.
Qed.

Lemma emits_only_try_catch {A} (c : M A) (h : value -> M A) :
  emits_only p c -> (forall e, emits_only p (h e)) -> emits_only p (try_catch c h).
Proof.
  intros (r & evs & Hevs & Hc) Hh. destruct r as [a|e].
  - exists (Ok a), evs. split; [assumption|].
    intros s. unfold try_catch. now rewrite Hc.
  - destruct (Hh e) as (r' & evs' & Hevs' & Hhe).
    exists r', (evs ++ evs')%list. split.
    + now rewrite forallb_app, Hevs, Hevs'.
    + intros s. unfold try_catch. now rewrite Hc, Hhe, appends_appends.
Qed.

Lemma emits_only_if {A} (b : bool) (c1 c2 : M A) :
  emits_only p c1 -> emits_only p c2 -> emits_only p (if b then c1 else c2).
Proof. now destruct b. Qed.

Lemma emits_only_get o k : emits_only p (get o k).
Proof. apply emits_only_lift. Qed.

Lemma emits_only_to_string v : emits_only p (to_string v).
Proof. apply emits_only_lift. Qed.

End EmitsOnly.

Lemma emits_only_weaken {A} (p q : event -> bool) (c : M A) :
  (forall e, p e = true -> q e = true) -> emits_only p c -> emits_only q c.
Proof.
  intros Hpq (r & evs & Hevs & Hc). exists r, evs. split; [|assumption].
  rewrite forallb_forall in *. auto.
Qed.

Lemma is_console_output e : is_console e = true -> is_output e = true.
Proof. now destruct e. Qed.

Lemma emits_only_console_log p args :
  p (ConsoleLog args) = true -> emits_only p (console_log args).
Proof. apply emits_only_emit. Qed.

Lemma emits_only_console_error p args :
  p (ConsoleError args) = true -> emits_only p (console_error args).
Proof. apply emits_only_emit. Qed.

Lemma emits_only_console_dir p v :
  p (ConsoleDir v) = true -> emits_only p (console_dir v).
Proof. apply emits_only_emit. Qed.

Lemma emits_only_res_json body : emits_only is_output (res_json body).
Proof. now apply emits_only_emit. Qed.

Lemma emits_only_res_status_send code body :
  emits_only is_output (res_status_send code body).
Proof. apply emits_only_emit. now destruct body. Qed.

Create HintDb js_emits.
#[local] Hint Resolve emits_only_ret emits_only_lift emits_only_throw
  emits_only_bind emits_only_try_catch emits_only_if emits_only_get
  emits_only_to_string emits_only_console_log emits_only_console_error
  emits_only_console_dir emits_only_res_json emits_only_res_status_send : js_emits.
#[local] Hint Extern 1 (_ = true) => reflexivity : js_emits.

Lemma errorHandler_emits_only err : emits_only is_output (errorHandler err).
Proof. unfold errorHandler. auto 20 with js_emits. Qed.

Lemma next_emits_only err : emits_only is_output (next err).
Proof.
  unfold next. destruct (express_error err);
    [apply errorHandler_emits_only | now apply emits_only_emit].
Qed.

Lemma handleItemWebhook_console_only code body :
  emits_only is_console (handleItemWebhook code body).
Proof. unfold handleItemWebhook. auto 20 with js_emits. Qed.

Lemma handleTransactionsWebhook_console_only code body :
  emits_only is_console (handleTransactionsWebhook code body).
Proof. unfold handleTransactionsWebhook. auto 20 with js_emits. Qed.

Lemma handleAssetsWebhook_console_only code body :
  emits_only is_console (handleAssetsWebhook code body).
Proof. unfold handleAssetsWebhook. auto 20 with js_emits. Qed.

Lemma handleItemWebhook_emits_only code body :
  emits_only is_output (handleItemWebhook code body).
Proof.
  eapply emits_only_weaken; [exact is_console_output|].
  apply handleItemWebhook_console_only.
Qed.

Lemma handleTransactionsWebhook_emits_only code body :
  emits_only is_output (handleTransactionsWebhook code body).
Proof.
  eapply emits_only_weaken; [exact is_console_output|].
  apply handleTransactionsWebhook_console_only.
Qed.

Lemma handleAssetsWebhook_emits_only code body :
  emits_only is_output (handleAssetsWebhook code body).
Proof.
  eapply emits_only_weaken; [exact is_console_output|].
  apply handleAssetsWebhook_console_only.
Qed.

#[local] Hint Resolve errorHandler_emits_only next_emits_only handleItemWebhook_emits_only
  handleTransactionsWebhook_emits_only handleAssetsWebhook_emits_only : js_emits.

Lemma receive_webhook_emits_only body : emits_only is_output (receive_webhook body).
Proof. unfold receive_webhook. auto 20 with js_emits. Qed.

(** C9.  Whatever the webhook body, the dispatch leaves the record in
    memory and the store as they were (and with them the webhook URL and
    the file system): it only prints and responds.  Its outcome and what
    it emits are the same from every state, so nothing is read from the
    record either; and each of the three product handlers emits console
    lines only. *)
Theorem receive_webhook_frame body :
  (forall s,
     userRecord (exec (receive_webhook body) s) = userRecord s /\
     disk (exec (receive_webhook body) s) = disk s /\
     webhookUrl (exec (receive_webhook body) s) = webhookUrl s /\
     io_faults (exec (receive_webhook body) s) = io_faults s) /\
  (exists evs,
     forallb is_output evs = true /\
     forall s1 s2,
       fst (receive_webhook body s1) = fst (receive_webhook body s2) /\
       trace (exec (receive_webhook body) s1) = (trace s1 ++ evs)%list /\
       trace (exec (receive_webhook body) s2) = (trace s2 ++ evs)%list) /\
  (forall code,
     emits_only is_console (handleItemWebhook code body) /\
     emits_only is_console (handleTransactionsWebhook code body) /\
     emits_only is_console (handleAssetsWebhook code body)).
Proof.
  destruct (receive_webhook_emits_only body) as (r & evs & Hevs & Hrun).
  split; [|split].
  - intros s. unfold exec. rewrite Hrun. repeat split.
  - exists evs. split; [assumption|].
    intros s1 s2. unfold exec. rewrite !Hrun. repeat split.
  - intros code. repeat split.
    + apply handleItemWebhook_console_only.
    + apply handleTransactionsWebhook_console_only.
    + apply handleAssetsWebhook_console_only.
Qed.

(** *** Webhook dispatch *)

Lemma logs_constant line : logs_one_line (console_log [VStr line]).
Proof. exists line. reflexivity. Qed.

Lemma logs_value v (line : string -> string) :
  prints v = true ->
  logs_one_line (shown <- to_string v;; console_log [VStr (line shown)]).
Proof.
  intros Hp. destruct (prints_ToString _ Hp) as (t & Ht).
  exists (line t). intros s.
  cbv [bind to_string lift]. now rewrite Ht.
Qed.

Lemma logs_field body k (line : string -> string) :
  is_nullish body = false ->
  prints (field body k) = true ->
  logs_one_line
    (v <- get body k;; shown <- to_string v;; console_log [VStr (line shown)]).
Proof.
  intros Hnn Hp. destruct (logs_value _ line Hp) as (l & Hl).
  exists l. intros s. rewrite <- Hl.
  cbv [bind get lift]. now rewrite (get_prop_field _ _ Hnn).
Qed.

Lemma logs_error_message body (line : string -> string) :
  is_nullish body = false ->
  is_nullish (field body "error") = false ->
  prints (field (field body "error") "error_message") = true ->
  logs_one_line
    (error <- get body "error";; error_message <- get error "error_message";;
     shown <- to_string error_message;; console_log [VStr (line shown)]).
Proof.
  intros Hnn He Hp. destruct (logs_field _ "error_message" line He Hp) as (l & Hl).
  exists l. intros s. rewrite <- Hl.
  cbv [bind get lift]. now rewrite (get_prop_field _ _ Hnn).
Qed.

(** Splits the [switch] of a handler into its cases. *)
Ltac switch_cases :=
  repeat match goal with
         | |- logs_one_line (if ?b then _ else _) => destruct b
         end.

Section PrintableEvent.

Variable body : value.
Hypothesis Hprintable : printable_event body = true.

Lemma printable_event_fields :
  is_nullish body = false /\
  prints (field body "webhook_type") = true /\
  prints (field body "webhook_code") = true /\
  (recognised (field body "webhook_type") (field body "webhook_code") = true ->
   prints (field body "item_id") = true /\
   prints (field body "new_transactions") = true /\
   prints (field body "asset_report_id") = true /\
   (strict_eq_str (field body "webhook_code") "ERROR" = true ->
    is_nullish (field body "error") = false /\
    prints (field (field body "error") "error_message") = true)).
Proof.
  unfold printable_event in Hprintable.
  apply andb_prop in Hprintable. destruct Hprintable as [H123 Hpay].
  apply andb_prop in H123. destruct H123 as [H12 Hcode].
  apply andb_prop in H12. destruct H12 as [Hnn Htype].
  apply negb_true_iff in Hnn.
  split; [exact Hnn|]. split; [exact Htype|]. split; [exact Hcode|].
  intros Hrec. rewrite Hrec in Hpay. simpl in Hpay. unfold payload_prints in Hpay.
  apply andb_prop in Hpay. destruct Hpay as [Hfields Herr].
  apply andb_prop in Hfields. destruct Hfields as [Hfields Hrep].
  apply andb_prop in Hfields. destruct Hfields as [Hid Hnew].
  split; [exact Hid|]. split; [exact Hnew|]. split; [exact Hrep|].
  intros Hcase. rewrite Hcase in Herr.
  apply andb_prop in Herr. destruct Herr as [He Hm].
  split; [now apply negb_true_iff in He | exact Hm].
Qed.

(** Settles [recognised] from the outcomes of the tests met on the way. *)
Ltac recognise :=
  unfold recognised, item_codes, transactions_codes, assets_codes; cbn [existsb];
  repeat match goal with
         | E : strict_eq_str ?a ?b = _ |- context [strict_eq_str ?a ?b] => rewrite E
         end;
  reflexivity.

Lemma handleItemWebhook_logs :
  strict_eq_str (field body "webhook_type") WebhookType_Item = true ->
  logs_one_line (handleItemWebhook (field body "webhook_code") body).
Proof.
  intros Hitem.
  destruct printable_event_fields as (Hnn & _ & Hcode & Hpay).
  unfold handleItemWebhook.
  destruct (strict_eq_str (field body "webhook_code") "ERROR") eqn:E1.
  { destruct Hpay as (_ & _ & _ & Herr); [recognise|].
    destruct Herr as [He Hm]; [reflexivity|].
    now apply (logs_error_message body
                 (fun shown => "I received this error: " ++ shown ++
                    "| should probably ask this user to connect to their bank")). }
  destruct (strict_eq_str (field body "webhook_code") "NEW_ACCOUNTS_AVAILABLE") eqn:E2.
  { destruct Hpay as (Hid & _); [recognise|].
    now apply (logs_field body "item_id"
                 (fun shown => "There are new accounts available at this Financial Institution! (Id: "
                    ++ shown ++ ") We might want to ask the user to share them with us")). }
  switch_cases;
    first [ apply logs_constant
          | now apply (logs_value _ (fun shown => "Can't handle webhook code " ++ shown)) ].
Qed.

Lemma handleTransactionsWebhook_logs :
  strict_eq_str (field body "webhook_type") WebhookType_Item = false ->
  strict_eq_str (field body "webhook_type") WebhookType_Transactions = true ->
  logs_one_line (handleTransactionsWebhook (field body "webhook_code") body).
Proof.
  intros Hitem Htrans.
  destruct printable_event_fields as (Hnn & _ & Hcode & Hpay).
  unfold handleTransactionsWebhook.
  destruct (strict_eq_str (field body "webhook_code") "INITIAL_UPDATE") eqn:E1.
  { destruct Hpay as (_ & Hnew & _); [recognise|].
    now apply (logs_field body "new_transactions"
                 (fun shown => "First patch of transactions are done. There's "
                    ++ shown ++ " available")). }
  destruct (strict_eq_str (field body "webhook_code") "HISTORICAL_UPDATE") eqn:E2.
  { destruct Hpay as (_ & Hnew & _); [recognise|].
    now apply (logs_field body "new_transactions"
                 (fun shown => "Historical transactions are done. There's "
                    ++ shown ++ " available")). }
  destruct (strict_eq_str (field body "webhook_code") "DEFAULT_UPDATE") eqn:E3.
  { destruct Hpay as (_ & Hnew & _); [recognise|].
    now apply (logs_field body "new_transactions"
                 (fun shown => "New data is here! There's " ++ shown ++ " available")). }
  switch_cases;
    first [ apply logs_constant
          | now apply (logs_value _ (fun shown => "Can't handle webhook code " ++ shown)) ].
Qed.

Lemma handleAssetsWebhook_logs :
  strict_eq_str (field body "webhook_type") WebhookType_Item = false ->
  strict_eq_str (field body "webhook_type") WebhookType_Transactions = false ->
  strict_eq_str (field body "webhook_type") WebhookType_Assets = true ->
  logs_one_line (handleAssetsWebhook (field body "webhook_code") body).
Proof.
  intros Hitem Htrans Hassets.
  destruct printable_event_fields as (Hnn & _ & Hcode & Hpay).
  unfold handleAssetsWebhook.
  destruct (strict_eq_str (field body "webhook_code") "PRODUCT_READY") eqn:E1.
  { destruct Hpay as (_ & _ & Hrep & _); [recognise|].
    now apply (logs_field body "asset_report_id"
                 (fun shown => "Looks like asset report " ++ shown ++ " is ready to download")). }
  destruct (strict_eq_str (field body "webhook_code") "ERROR") eqn:E2.
  { destruct Hpay as (_ & _ & _ & Herr); [recognise|].
    destruct Herr as [He Hm]; [reflexivity|].
    now apply (logs_error_message body
                 (fun shown => "I had an error generating this report: " ++ shown)). }
  now apply (logs_value _ (fun shown => "Can't handle webhook code " ++ shown)).
Qed.

(** C3, as the code has it.  A webhook body that is an object with a
    product type and a code that convert to strings is answered 200
    [{status: "received"}] when the dispatcher has no case for them, and
    also when it has one and the payload prints (the interpolated fields
    convert to strings, an [ERROR] event carries its [error] object); the
    dispatch logs the body and one line and does nothing else. *)
Theorem receive_webhook_acknowledges s :
  exists line,
    receive_webhook body s =
      (Ok tt,
       appends [ConsoleLog [VStr "this is the webhook response"];
                ConsoleDir body;
                ConsoleLog [VStr line];
                Respond 200 status_received] s).
Proof.
  destruct printable_event_fields as (Hnn & Htype & _).
  assert (Hswitch : logs_one_line
    (if strict_eq_str (field body "webhook_type") WebhookType_Item
     then handleItemWebhook (field body "webhook_code") body
     else if strict_eq_str (field body "webhook_type") WebhookType_Transactions
     then handleTransactionsWebhook (field body "webhook_code") body
     else if strict_eq_str (field body "webhook_type") WebhookType_Assets
     then handleAssetsWebhook (field body "webhook_code") body
     else shown <- to_string (field body "webhook_type");;
          console_log [VStr ("Can't handle webhook product " ++ shown)])).
  { destruct (strict_eq_str (field body "webhook_type") WebhookType_Item) eqn:E1;
      [now apply handleItemWebhook_logs|].
    destruct (strict_eq_str (field body "webhook_type") WebhookType_Transactions) eqn:E2;
      [now apply handleTransactionsWebhook_logs|].
    destruct (strict_eq_str (field body "webhook_type") WebhookType_Assets) eqn:E3;
      [now apply handleAssetsWebhook_logs|].
    now apply (logs_value _ (fun shown => "Can't handle webhook product " ++ shown)). }
  destruct Hswitch as (line & Hline). exists line.
  unfold receive_webhook.
  cbv [try_catch bind get lift console_log console_dir res_json modify].
  rewrite !(get_prop_field _ _ Hnn).
  rewrite Hline. now gather.
Qed.

End PrintableEvent.

(** An event of strings for which the dispatcher has no case is printable,
    whatever its payload. *)
Lemma unrecognised_event_is_printable product code payload :
  recognised (VStr product) (VStr code) = false ->
  printable_event (webhook product code payload) = true.
Proof.
  intros Hrec. unfold printable_event, webhook, field. cbn.
  now rewrite Hrec.
Qed.

(** Scenario D: the unknown product type [FOO] is logged and acknowledged. *)
Lemma receive_webhook_acknowledges_witness :
  printable_event (webhook "FOO" "BAR" []) = true /\
  exists line,
    receive_webhook (webhook "FOO" "BAR" []) fresh =
      (Ok tt,
       appends [ConsoleLog [VStr "this is the webhook response"];
                ConsoleDir (webhook "FOO" "BAR" []);
                ConsoleLog [VStr line];
                Respond 200 status_received] fresh).
Proof.
  split; [reflexivity|].
  exact (receive_webhook_acknowledges (webhook "FOO" "BAR" []) eq_refl fresh).
Defined.

(** C3, as the specification states it, fails: an [ITEM] / [ERROR] event that carries
    no [error] object makes the handler throw, and the sender is answered
    500 with the generic error payload, not the acknowledgement. *)
Lemma item_error_without_error_object_gets_500 :
  printable_event (webhook "ITEM" "ERROR" []) = false /\
  receive_webhook (webhook "ITEM" "ERROR" []) fresh =
    (Ok tt,
     appends [ConsoleLog [VStr "this is the webhook response"];
              ConsoleDir (webhook "ITEM" "ERROR" []);
              ConsoleError [VStr "Your error:"];
              ConsoleError
                [type_error "Cannot read properties of undefined (reading 'error_message')"];
              Respond 500 other_error] fresh).
Proof. split; reflexivity. Qed.

(** So does a code that does not convert to a string: an object that
    shadows [toString]. *)
Example unprintable_code_gets_500 :
  receive_webhook
    (VObj [("webhook_type", VStr "ITEM");
           ("webhook_code", VObj [("toString", VNum 1)])]) fresh =
    (Ok tt,
     appends [ConsoleLog [VStr "this is the webhook response"];
              ConsoleDir (VObj [("webhook_type", VStr "ITEM");
                                ("webhook_code", VObj [("toString", VNum 1)])]);
              ConsoleError [VStr "Your error:"];
              ConsoleError [type_error "Cannot convert object to primitive value"];
              Respond 500 other_error] fresh).
Proof. reflexivity. Qed.

(** Scenario B: a transactions update is logged and acknowledged. *)
Example default_update_is_acknowledged :
  receive_webhook (webhook "TRANSACTIONS" "DEFAULT_UPDATE" [("new_transactions", VNum 5)]) fresh =
    (Ok tt,
     appends [ConsoleLog [VStr "this is the webhook response"];
              ConsoleDir (webhook "TRANSACTIONS" "DEFAULT_UPDATE" [("new_transactions", VNum 5)]);
              ConsoleLog [VStr "New data is here! There's 5 available"];
              Respond 200 status_received] fresh).
Proof. reflexivity. Qed.

(** C7.  The code at the revocation event: on a connected record, the
    [ITEM] / [USER_PERMISSION_REVOKED] webhook is acknowledged and logged
    (the line says the item should be removed from the records), and the
    record stays connected with its access token. *)
Theorem revocation_webhook_leaves_record_connected :
  userRecord linked =
    VObj [(FIELD_ACCESS_TOKEN, VStr "access-sandbox-1");
          (FIELD_USER_STATUS, VStr "connected")] /\
  receive_webhook (webhook "ITEM" "USER_PERMISSION_REVOKED" []) linked =
    (Ok tt,
     appends [ConsoleLog [VStr "this is the webhook response"];
              ConsoleDir (webhook "ITEM" "USER_PERMISSION_REVOKED" []);
              ConsoleLog [VStr "The user revoked access to this item. We should remove it from our records"];
              Respond 200 status_received] linked) /\
  userRecord (exec (receive_webhook (webhook "ITEM" "USER_PERMISSION_REVOKED" [])) linked) =
    userRecord linked /\
  disk (exec (receive_webhook (webhook "ITEM" "USER_PERMISSION_REVOKED" [])) linked) =
    disk linked /\
  connected (userRecord (exec (receive_webhook (webhook "ITEM" "USER_PERMISSION_REVOKED" [])) linked)) = true /\
  has_token (userRecord (exec (receive_webhook (webhook "ITEM" "USER_PERMISSION_REVOKED" [])) linked)) = true.
Proof. repeat split. Qed.

(** *** The record store *)

Section Store.

Context `{JsonRuntime}.

(** C5.  When the store is missing, or holds text that does not parse,
    the load returns [null] without throwing and the start-up goes on with
    the default record [{accessToken: null, userStatus: "disconnected"}]
    and ends normally, whatever the file system does to the read. *)
Theorem startup_default url store faults :
  (store = None \/ exists text, store = Some text /\ JSON_parse text = None) ->
  fst (getUserRecord (boot url store faults)) = Ok VNull /\
  fst (startup (boot url store faults)) = Ok tt /\
  userRecord (exec startup (boot url store faults)) = default_record.
Proof.
  intros Hstore.
  destruct faults as [|[code|] rest].
  - destruct Hstore as [-> | (text & -> & Hp)].
    + repeat split.
    + run. rewrite Hp. cbn. repeat split.
  - run. destruct (String.eqb code "ENOENT"); repeat split.
  - destruct Hstore as [-> | (text & -> & Hp)].
    + repeat split.
    + run. rewrite Hp. cbn. repeat split.
Qed.

(** What the start-up leaves in memory: the default record, or the
    non-null value parsed from the store. *)
Lemma startup_record url store faults :
  userRecord (exec startup (boot url store faults)) = default_record \/
  exists text r,
    store = Some text /\ JSON_parse text = Some r /\
    userRecord (exec startup (boot url store faults)) = r.
Proof.
  destruct faults as [|[code|] rest].
  - destruct store as [text|]; [|now left].
    run. destruct (JSON_parse text) as [r|] eqn:Hp; cbn; [|now left].
    destruct (is_nullish r); cbn; [now left|]. right. now exists text, r.
  - left. run. now destruct (String.eqb code "ENOENT").
  - destruct store as [text|]; [|now left].
    run. destruct (JSON_parse text) as [r|] eqn:Hp; cbn; [|now left].
    destruct (is_nullish r); cbn; [now left|]. right. now exists text, r.
Qed.

(** One update: the record takes the new field whatever becomes of the
    write, or the assignment throws and nothing changes. *)
Lemma updateUserRecord_cases key val s :
  (exists r s',
     set_prop (userRecord s) key val = Ok r /\
     updateUserRecord key val s = (Ok tt, s') /\
     userRecord s' = r) \/
  (exists e,
     set_prop (userRecord s) key val = Throw e /\
     updateUserRecord key val s = (Throw e, s)).
Proof.
  destruct s as [rec url cfg d faults tr]. run.
  destruct (set_prop rec key val) as [r|e]; cbn; [left|right; now exists e].
  exists r.
  destruct (JSON_stringify r) as [text|]; cbn; [|eexists; now repeat split].
  destruct faults as [|[code|] rest]; cbn; eexists; now repeat split.
Qed.

(** C6, as the code has it.  When the write of an update fails, the
    failure is logged on the console and goes no further:
    [updateUserRecord] returns normally, so its caller is not told and
    nothing crashes; the record in memory holds the value just written. *)
Theorem failed_save_is_logged_and_swallowed s key val r text code rest :
  set_prop (userRecord s) key val = Ok r ->
  JSON_stringify r = Some text ->
  io_faults s = Some code :: rest ->
  fst (updateUserRecord key val s) = Ok tt /\
  userRecord (exec (updateUserRecord key val) s) = r /\
  get_prop (userRecord (exec (updateUserRecord key val) s)) key = Ok val /\
  trace (exec (updateUserRecord key val) s) =
    (trace s ++ [FsWriteFile USER_DATA_FILE text 384 false;
                 ConsoleLog [VStr "Got an error: "; fs_error code]])%list.
Proof.
  intros Hset Hjson Hfault.
  destruct s as [rec url cfg d faults tr]; simpl in *. subst faults.
  run. rewrite Hset. cbn. rewrite Hjson. cbn.
  rewrite <- app_assoc. repeat split.
  eapply get_set_same; eauto.
Qed.

(** C8.  A save followed by a load gives the record back: when the record
    survives JSON ([JSON.parse] of its [JSON.stringify] is the record) and
    neither the write nor the read fails, the value loaded after an update,
    by [getUserRecord] or by a restart of the process, is the record in
    memory. *)
Theorem save_then_load s key val r text :
  set_prop (userRecord s) key val = Ok r ->
  JSON_stringify r = Some text ->
  JSON_parse text = Some r ->
  fault_at 0 s = None ->
  fault_at 1 s = None ->
  userRecord (exec (updateUserRecord key val) s) = r /\
  disk (exec (updateUserRecord key val) s) = Some text /\
  fst (getUserRecord (exec (updateUserRecord key val) s)) = Ok r /\
  forall url faults,
    userRecord
      (exec startup
         (boot url (disk (exec (updateUserRecord key val) s)) (None :: faults))) = r.
Proof.
  intros Hset Hjson Hparse H0 H1.
  pose proof (set_prop_not_nullish _ _ _ _ Hset) as Hnn.
  destruct s as [rec url cfg d faults tr]; unfold fault_at in *; simpl in *.
  destruct faults as [|f0 [|f1 rest]]; simpl in *; subst;
    run; rewrite Hset; cbn; rewrite Hjson; cbn; rewrite Hparse; cbn; rewrite ?Hnn;
    repeat split; intros; rewrite ?Hparse; cbn; rewrite ?Hnn; reflexivity.
Qed.

(** *** The token exchange *)

(** C2, as the code has it.  After a successful exchange, on a record
    that is an object: the handler sets [accessToken] to the exchanged
    value and then [userStatus] to ["connected"]; it attempts the write of
    the record with the token first, the write of the record with the
    status second, and responds 200 [{status: "success"}] last, whether
    the writes succeed or fail; the store holds the serialized pair when
    the second write succeeds. *)
Theorem swap_public_token_connects
    env body s props public_token response data token t1 t2 :
  get_prop body "public_token" = Ok public_token ->
  itemPublicTokenExchange (plaidClient env) (VObj [("public_token", public_token)])
    = Ok response ->
  get_prop response "data" = Ok data ->
  get_prop data "access_token" = Ok token ->
  userRecord s = VObj props ->
  JSON_stringify (VObj (assign FIELD_ACCESS_TOKEN token props)) = Some t1 ->
  JSON_stringify
    (VObj (assign FIELD_USER_STATUS (VStr "connected")
             (assign FIELD_ACCESS_TOKEN token props))) = Some t2 ->
  fst (swap_public_token env body s) = Ok tt /\
  userRecord (exec (swap_public_token env body) s) =
    VObj (assign FIELD_USER_STATUS (VStr "connected")
            (assign FIELD_ACCESS_TOKEN token props)) /\
  get_prop (userRecord (exec (swap_public_token env body) s)) FIELD_ACCESS_TOKEN
    = Ok token /\
  get_prop (userRecord (exec (swap_public_token env body) s)) FIELD_USER_STATUS
    = Ok (VStr "connected") /\
  trace (exec (swap_public_token env body) s) =
    (trace s
     ++ [PlaidCall "itemPublicTokenExchange" (VObj [("public_token", public_token)]);
         ConsoleLog [VStr ("You got back " ++
                           match JSON_stringify data with
                           | Some t => t
                           | None => "undefined"
                           end)]]
     ++ save_events t1 (fault_at 0 s)
     ++ save_events t2 (fault_at 1 s)
     ++ [Respond 200 status_success])%list /\
  (fault_at 1 s = None -> disk (exec (swap_public_token env body) s) = Some t2).
Proof.
  intros Hbody Hcall Hdata Htoken Hrec H1 H2.
  destruct s as [rec url cfg d faults tr]; unfold fault_at; simpl in *. subst rec.
  unfold exec, swap_public_token.
  cbv [bind try_catch get lift plaid_call modify to_string].
  rewrite Hbody. cbn. rewrite Hcall, Hdata.
  assert (Hshown :
            ToString (match JSON_stringify data with
                      | Some t => VStr t
                      | None => VUndefined
                      end)
            = Ok (match JSON_stringify data with Some t => t | None => "undefined" end))
    by (destruct (JSON_stringify data); reflexivity).
  rewrite Hshown. cbn. rewrite Htoken.
  run. rewrite H1.
  destruct faults as [|[c0|] [|[c1|] rest]]; cbn; rewrite ?H2; cbn;
    rewrite ?lookup_assign_same;
    rewrite ?(lookup_assign_other FIELD_USER_STATUS FIELD_ACCESS_TOKEN) by reflexivity;
    rewrite ?lookup_assign_same;
    rewrite <- ?app_assoc; cbn; repeat split; try discriminate.
Qed.

End Store.

Lemma startup_default_witness :
  JSON_parse "{oops" = None /\
  fst (getUserRecord (boot None (Some "{oops") [])) = Ok VNull /\
  fst (startup (boot None (Some "{oops") [])) = Ok tt /\
  userRecord (exec startup (boot None (Some "{oops") [])) = default_record.
Proof.
  split; [reflexivity|].
  apply (startup_default None (Some "{oops") []).
  right. exists "{oops". split; reflexivity.
Defined.

(** C6, as the specification states it, fails: on a file system that refuses the
    write, the update of the status returns normally, and the caller has
    nothing to tell the failure by: the swap handler goes on to answer
    [{status: "success"}]. *)
Lemma failed_save_is_not_surfaced :
  io_faults fresh_read_only = [Some "EACCES"; Some "EACCES"] /\
  fst (updateUserRecord FIELD_USER_STATUS (VStr "connected") fresh_read_only) = Ok tt /\
  last (trace (exec (updateUserRecord FIELD_USER_STATUS (VStr "connected")) fresh_read_only))
       (ConsoleLog []) =
    ConsoleLog [VStr "Got an error: "; fs_error "EACCES"].
Proof. repeat split. Qed.

Lemma failed_save_is_logged_and_swallowed_witness :
  io_faults fresh_read_only = [Some "EACCES"; Some "EACCES"] /\
  fst (updateUserRecord FIELD_USER_STATUS (VStr "connected") fresh_read_only) = Ok tt /\
  userRecord (exec (updateUserRecord FIELD_USER_STATUS (VStr "connected")) fresh_read_only) =
    VObj [(FIELD_ACCESS_TOKEN, VNull); (FIELD_USER_STATUS, VStr "connected")].
Proof.
  split; [reflexivity|].
  destruct (failed_save_is_logged_and_swallowed fresh_read_only
              FIELD_USER_STATUS (VStr "connected")
              (VObj [(FIELD_ACCESS_TOKEN, VNull); (FIELD_USER_STATUS, VStr "connected")])
              (serialized
                 (VObj [(FIELD_ACCESS_TOKEN, VNull); (FIELD_USER_STATUS, VStr "connected")]))
              "EACCES" [Some "EACCES"]) as (Hok & Hrec & _);
    [reflexivity | reflexivity | reflexivity | split; assumption].
Defined.

(** A first update on a working file system, then a load. *)
Lemma save_then_load_witness :
  JSON_parse (serialized
                (VObj [(FIELD_ACCESS_TOKEN, VStr "access-sandbox-1");
                       (FIELD_USER_STATUS, VStr "disconnected")])) =
    Some (VObj [(FIELD_ACCESS_TOKEN, VStr "access-sandbox-1");
                (FIELD_USER_STATUS, VStr "disconnected")]) /\
  fst (getUserRecord (exec (updateUserRecord FIELD_ACCESS_TOKEN (VStr "access-sandbox-1")) fresh)) =
    Ok (VObj [(FIELD_ACCESS_TOKEN, VStr "access-sandbox-1");
              (FIELD_USER_STATUS, VStr "disconnected")]).
Proof.
  split; [reflexivity|].
  destruct (save_then_load fresh FIELD_ACCESS_TOKEN (VStr "access-sandbox-1")
              (VObj [(FIELD_ACCESS_TOKEN, VStr "access-sandbox-1");
                     (FIELD_USER_STATUS, VStr "disconnected")])
              (serialized
                 (VObj [(FIELD_ACCESS_TOKEN, VStr "access-sandbox-1");
                        (FIELD_USER_STATUS, VStr "disconnected")]))
           ) as (_ & _ & Hload & _);
    [reflexivity | reflexivity | reflexivity | reflexivity | reflexivity | exact Hload].
Defined.

(** C2, as the specification states it, fails: the exchange succeeds and the handler
    answers [{status: "success"}] while both writes are refused and the
    store holds nothing. *)
Lemma swap_answers_success_without_store :
  itemPublicTokenExchange sandbox_plaid public_xyz =
    Ok (VObj [("status", VNum 200);
              ("data", VObj [("access_token", VStr "access-sandbox-1");
                             ("item_id", VStr "item-1")])]) /\
  fst (swap_public_token (env_of sandbox_plaid) public_xyz fresh_read_only) = Ok tt /\
  last (trace (exec (swap_public_token (env_of sandbox_plaid) public_xyz) fresh_read_only))
       (ConsoleLog []) = Respond 200 status_success /\
  userRecord (exec (swap_public_token (env_of sandbox_plaid) public_xyz) fresh_read_only) =
    VObj [(FIELD_ACCESS_TOKEN, VStr "access-sandbox-1");
          (FIELD_USER_STATUS, VStr "connected")] /\
  disk (exec (swap_public_token (env_of sandbox_plaid) public_xyz) fresh_read_only) = None.
Proof. repeat split. Qed.

(** A store that holds a number leaves a record no property can be assigned
    to: the exchange succeeds and the handler answers 500. *)
Example swap_on_primitive_record_gets_500 :
  userRecord (exec startup (boot None (Some "5") [])) = VNum 5 /\
  last (trace (exec (swap_public_token (env_of sandbox_plaid) public_xyz)
                 (exec startup (boot None (Some "5") []))))
       (ConsoleLog []) = Respond 500 other_error.
Proof. split; reflexivity. Qed.

(** Scenario A: the exchange of [public-xyz] on a fresh process. *)
Lemma swap_public_token_connects_witness :
  userRecord linked =
    VObj [(FIELD_ACCESS_TOKEN, VStr "access-sandbox-1");
          (FIELD_USER_STATUS, VStr "connected")] /\
  disk linked =
    Some (serialized (VObj [(FIELD_ACCESS_TOKEN, VStr "access-sandbox-1");
                            (FIELD_USER_STATUS, VStr "connected")])).
Proof.
  destruct (swap_public_token_connects (env_of sandbox_plaid) public_xyz fresh
              [(FIELD_ACCESS_TOKEN, VNull); (FIELD_USER_STATUS, VStr "disconnected")]
              (VStr "public-xyz")
              (VObj [("status", VNum 200);
                     ("data", VObj [("access_token", VStr "access-sandbox-1");
                                    ("item_id", VStr "item-1")])])
              (VObj [("access_token", VStr "access-sandbox-1"); ("item_id", VStr "item-1")])
              (VStr "access-sandbox-1")
              (serialized (VObj [(FIELD_ACCESS_TOKEN, VStr "access-sandbox-1");
                                 (FIELD_USER_STATUS, VStr "disconnected")]))
              (serialized (VObj [(FIELD_ACCESS_TOKEN, VStr "access-sandbox-1");
                                 (FIELD_USER_STATUS, VStr "connected")]))
           ) as (_ & Hrec & _ & _ & _ & Hdisk);
    [reflexivity | reflexivity | reflexivity | reflexivity | reflexivity
    | reflexivity | reflexivity | split; [exact Hrec | exact (Hdisk eq_refl)]].
Defined.

(** *** The webhook URL *)

(** C10.  The handler assigns the new URL to [webhookUrl] before it calls
    the remote service: the request it sends carries the new URL, and when
    the call is rejected, with whatever value, the handler returns with
    [webhookUrl] keeping the new value, having only printed and answered
    after the call.  When the rejection is an error as the remote client
    raises them (a value Express takes for an error: truthy, and not
    ['route'] or ['router']; its nested data, if any, not a bare number,
    which [res.send] would read as a status), the answer is that of the
    error responder, with status 500. *)
Theorem update_webhook_failure_keeps_new_url env body s newUrl token err :
  get_prop body "newUrl" = Ok newUrl ->
  get_prop (userRecord s) FIELD_ACCESS_TOKEN = Ok token ->
  itemWebhookUpdate (plaidClient env)
    (VObj [("access_token", token); ("webhook", newUrl)]) = Throw err ->
  fst (update_webhook env body s) = Ok tt /\
  webhookUrl (exec (update_webhook env body) s) = newUrl /\
  exists evs,
    trace (exec (update_webhook env body) s) =
      (trace s ++
       PlaidCall "itemWebhookUpdate" (VObj [("access_token", token); ("webhook", newUrl)])
       :: evs)%list /\
    forallb is_output evs = true /\
    (express_error err = true ->
     is_number (nested_data err) = false ->
     evs = [ConsoleError [VStr "Your error:"];
            ConsoleError [err];
            Respond 500 (error_body err)]).
Proof.
  intros Hbody Htok Hcall.
  destruct (next_returns err) as (evs & Hout & Hnext & Hevs).
  unfold exec, update_webhook.
  cbv [bind try_catch get lift modify gets plaid_call].
  rewrite Hbody. cbn. rewrite Htok. cbn. rewrite Hcall.
  rewrite Hnext. cbn.
  split; [reflexivity|]. split; [reflexivity|].
  exists evs. split; [now rewrite <- app_assoc|]. split; assumption.
Qed.

Lemma update_webhook_failure_keeps_new_url_witness :
  webhookUrl fresh = VStr "https://www.example.com/server/plaid_webhook" /\
  webhookUrl
    (exec (update_webhook (env_of failing_plaid) (VObj [("newUrl", VStr "https://hooks.test/plaid")]))
       fresh) = VStr "https://hooks.test/plaid" /\
  last (trace
          (exec (update_webhook (env_of failing_plaid)
                   (VObj [("newUrl", VStr "https://hooks.test/plaid")])) fresh))
       (ConsoleLog []) =
    Respond 500
      (VObj [("error_code", VStr "ITEM_LOGIN_REQUIRED");
             ("error_message", VStr "the login details have changed")]).
Proof.
  split; [reflexivity|].
  destruct (update_webhook_failure_keeps_new_url (env_of failing_plaid)
              (VObj [("newUrl", VStr "https://hooks.test/plaid")]) fresh
              (VStr "https://hooks.test/plaid") VNull login_required)
    as (_ & Hurl & evs & Htrace & _ & Hevs);
    [reflexivity | reflexivity | reflexivity
    | split; [exact Hurl | rewrite Htrace, (Hevs eq_refl eq_refl); reflexivity]].
Defined.

(** *** The invariant of the connection record *)

Section Keeps.

Variable R : server -> server -> Prop.
Hypothesis R_refl : forall s, R s s.
Hypothesis R_trans : forall s1 s2 s3, R s1 s2 -> R s2 s3 -> R s1 s3.

Lemma keeps_ret {A} (a : A) : keeps R (ret a).
Proof. intros s. apply R_refl. Qed.

Lemma keeps_lift {A} (r : result A) : keeps R (lift r).
Proof. intros s. apply R_refl. Qed.

Lemma keeps_gets {A} (f : server -> A) : keeps R (gets f).
Proof. intros s. apply R_refl. Qed.

Lemma keeps_modify f : (forall s, R s (f s)) -> keeps R (modify f).
Proof. intros Hf s. apply Hf. Qed.

Lemma keeps_bind {A B} (c : M A) (k : A -> M B) :
  keeps R c -> (forall a, keeps R (k a)) -> keeps R (bind c k).
Proof.
  intros Hc Hk s. unfold bind. specialize (Hc s).
  destruct (c s) as [[a|e] s1]; simpl in *.
  - eapply R_trans; [exact Hc | apply Hk].
  - exact Hc.
Qed.

Lemma keeps_try_catch {A} (c : M A) (h : value -> M A) :
  keeps R c -> (forall e, keeps R (h e)) -> keeps R (try_catch c h).
Proof.
  intros Hc Hh s. unfold try_catch. specialize (Hc s).
  destruct (c s) as [[a|e] s1]; simpl in *.
  - exact Hc.
  - eapply R_trans; [exact Hc | apply Hh].
Qed.

End Keeps.

Lemma same_record_refl s : same_record s s.
Proof. reflexivity. Qed.

Lemma same_record_trans s1 s2 s3 :
  same_record s1 s2 -> same_record s2 s3 -> same_record s1 s3.
Proof. unfold same_record. congruence. Qed.

Lemma same_record_ret {A} (a : A) : keeps same_record (ret a).
Proof. apply keeps_ret, same_record_refl. Qed.

Lemma same_record_lift {A} (r : result A) : keeps same_record (lift r).
Proof. apply keeps_lift, same_record_refl. Qed.

Lemma same_record_gets {A} (f : server -> A) : keeps same_record (gets f).
Proof. apply keeps_gets, same_record_refl. Qed.

Lemma same_record_bind {A B} (c : M A) (k : A -> M B) :
  keeps same_record c -> (forall a, keeps same_record (k a)) ->
  keeps same_record (bind c k).
Proof. apply keeps_bind, same_record_trans. Qed.

Lemma same_record_try_catch {A} (c : M A) (h : value -> M A) :
  keeps same_record c -> (forall e, keeps same_record (h e)) ->
  keeps same_record (try_catch c h).
Proof. apply keeps_try_catch, same_record_trans. Qed.

Lemma same_record_emits {A} p (c : M A) : emits_only p c -> keeps same_record c.
Proof. intros (r & evs & _ & Hc) s. now rewrite Hc. Qed.

Lemma same_record_get o k : keeps same_record (get o k).
Proof. apply same_record_lift. Qed.

Lemma same_record_res_json body : keeps same_record (res_json body).
Proof. now apply keeps_modify. Qed.

Lemma same_record_console_log args : keeps same_record (console_log args).
Proof. now apply keeps_modify. Qed.

Lemma same_record_set_webhookUrl u : keeps same_record (modify (set_webhookUrl u)).
Proof. now apply keeps_modify. Qed.

Lemma same_record_plaid_call op f req : keeps same_record (plaid_call op f req).
Proof.
  unfold plaid_call. apply same_record_bind.
  - now apply keeps_modify.
  - intros _. apply same_record_lift.
Qed.

Lemma same_record_next e : keeps same_record (next e).
Proof. eapply same_record_emits, next_emits_only. Qed.

Create HintDb js_record.
#[local] Hint Resolve same_record_ret same_record_lift same_record_gets
  same_record_bind same_record_try_catch same_record_get same_record_res_json
  same_record_console_log same_record_set_webhookUrl same_record_plaid_call
  same_record_next : js_record.

Lemma get_user_info_same_record : keeps same_record get_user_info.
Proof. unfold get_user_info. auto 20 with js_record. Qed.

Lemma generate_link_token_same_record env : keeps same_record (generate_link_token env).
Proof. unfold generate_link_token. auto 20 with js_record. Qed.

Lemma transactions_same_record env : keeps same_record (transactions env).
Proof. unfold transactions. auto 20 with js_record. Qed.

Lemma balances_same_record env : keeps same_record (balances env).
Proof. unfold balances. auto 20 with js_record. Qed.

Lemma create_asset_report_same_record env : keeps same_record (create_asset_report env).
Proof. unfold create_asset_report. auto 20 with js_record. Qed.

Lemma fire_test_webhook_same_record env : keeps same_record (fire_test_webhook env).
Proof. unfold fire_test_webhook. auto 20 with js_record. Qed.

Lemma update_webhook_same_record env body : keeps same_record (update_webhook env body).
Proof. unfold update_webhook. auto 20 with js_record. Qed.

Lemma receive_webhook_same_record body : keeps same_record (receive_webhook body).
Proof. eapply same_record_emits, receive_webhook_emits_only. Qed.

Lemma consistent_default : consistent default_record.
Proof. unfold consistent. simpl. split; discriminate. Qed.

#[local] Arguments updateUserRecord : simpl never.

Section Invariant.

Context `{JsonRuntime}.

(** The exchange, run to its end, leaves a record that satisfies the
    invariant: both fields set, or nothing changed. *)
Lemma swap_public_token_consistent env body s :
  exchange_returns_token (plaidClient env) ->
  consistent (userRecord s) ->
  consistent (userRecord (exec (swap_public_token env body) s)).
Proof.
  intros Hex Hs.
  unfold exec, swap_public_token.
  cbv [try_catch bind get lift plaid_call modify to_string].
  destruct (get_prop body "public_token") as [pt|e]; cbn;
    [|now rewrite same_record_next].
  destruct (itemPublicTokenExchange (plaidClient env) (VObj [("public_token", pt)]))
    as [response|e] eqn:Hcall; cbn; [|now rewrite same_record_next].
  destruct (Hex _ _ Hcall) as (data & token & Hdata & Htoken).
  rewrite Hdata.
  assert (Hshown : exists shown,
            ToString (match JSON_stringify data with
                      | Some t => VStr t
                      | None => VUndefined
                      end) = Ok shown)
    by (destruct (JSON_stringify data); simpl; eauto).
  destruct Hshown as (shown & ->). rewrite Htoken.
  match goal with
  | |- context [updateUserRecord FIELD_ACCESS_TOKEN (VStr token) ?s1] =>
      destruct (updateUserRecord_cases FIELD_ACCESS_TOKEN (VStr token) s1)
        as [(r1 & s2 & Hset1 & -> & Hr1) | (e & Hset1 & ->)]
  end; [|rewrite same_record_next; exact Hs].
  destruct (updateUserRecord_cases FIELD_USER_STATUS (VStr "connected") s2)
    as [(r2 & s3 & Hset2 & -> & Hr2) | (e & Hset2 & _)].
  - cbn. rewrite Hr2. rewrite Hr1 in Hset2.
    unfold consistent, connected, has_token.
    rewrite (get_set_same _ _ _ _ Hset2).
    rewrite (get_set_other _ FIELD_USER_STATUS FIELD_ACCESS_TOKEN _ _ eq_refl Hset2).
    rewrite (get_set_same _ _ _ _ Hset1). now split.
  - rewrite Hr1 in Hset2.
    destruct (set_prop_again _ _ _ _ FIELD_USER_STATUS (VStr "connected") Hset1) as (r' & Hr').
    congruence.
Qed.

Lemma handle_consistent env rq s :
  exchange_returns_token (plaidClient env) ->
  consistent (userRecord s) ->
  consistent (userRecord (exec (handle env rq) s)).
Proof.
  intros Hex Hs. destruct rq; simpl handle;
    try (now apply swap_public_token_consistent);
    unfold exec;
    first [ rewrite get_user_info_same_record
          | rewrite generate_link_token_same_record
          | rewrite transactions_same_record
          | rewrite balances_same_record
          | rewrite create_asset_report_same_record
          | rewrite fire_test_webhook_same_record
          | rewrite update_webhook_same_record
          | rewrite receive_webhook_same_record ];
    assumption.
Qed.

(** C1, as the code has it.  The record satisfies
    [userStatus == "connected"] iff [accessToken != null] in every state
    the process is in between two requests: after a start-up that finds no
    store, an unparsable one or one holding a record that satisfies it, and
    after each request handler run to its end, as long as a successful
    exchange returns a string token. *)
Theorem reachable_consistent s : reachable s -> consistent (userRecord s).
Proof.
  induction 1 as [url store faults Hstore | env rq s Hex Hreach IH].
  - destruct (startup_record url store faults) as [-> | (text & r & -> & Hp & ->)].
    + apply consistent_default.
    + simpl in Hstore. now rewrite Hp in Hstore.
  - now apply handle_consistent.
Qed.

End Invariant.

Lemma sandbox_returns_token : exchange_returns_token (plaidClient (env_of sandbox_plaid)).
Proof.
  intros request response E. inversion E; subst.
  eexists _, _. split; reflexivity.
Defined.

Lemma reachable_linked : reachable linked.
Proof.
  unfold linked, fresh.
  apply (reach_request (env_of sandbox_plaid) (POST_swap_public_token public_xyz)).
  - exact sandbox_returns_token.
  - apply reach_startup. exact I.
Defined.

Lemma reachable_consistent_witness :
  reachable linked /\ consistent (userRecord linked).
Proof.
  split; [exact reachable_linked|].
  exact (reachable_consistent linked reachable_linked).
Defined.

(** C1, as the specification states it, fails: the first of the two updates of the
    exchange, completed on a fresh process, leaves the access token set
    while the status still reads ["disconnected"]. *)
Lemma update_of_token_breaks_invariant :
  consistent (userRecord fresh) /\
  fst (updateUserRecord FIELD_ACCESS_TOKEN (VStr "access-sandbox-1") fresh) = Ok tt /\
  userRecord (exec (updateUserRecord FIELD_ACCESS_TOKEN (VStr "access-sandbox-1")) fresh) =
    VObj [(FIELD_ACCESS_TOKEN, VStr "access-sandbox-1");
          (FIELD_USER_STATUS, VStr "disconnected")] /\
  has_token
    (userRecord (exec (updateUserRecord FIELD_ACCESS_TOKEN (VStr "access-sandbox-1")) fresh))
    = true /\
  connected
    (userRecord (exec (updateUserRecord FIELD_ACCESS_TOKEN (VStr "access-sandbox-1")) fresh))
    = false /\
  ~ consistent
      (userRecord (exec (updateUserRecord FIELD_ACCESS_TOKEN (VStr "access-sandbox-1")) fresh)).
Proof.
  split; [exact consistent_default|].
  repeat split.
  intros [_ Hback]. discriminate (Hback eq_refl).
Qed.

(** The states between requests are not safe from a failed write either:
    when the write of the status fails, the store keeps the record of the
    first write, and a restart loads a token with the status
    ["disconnected"]. *)
Example restart_after_failed_status_write :
  disk (exec (swap_public_token (env_of sandbox_plaid) public_xyz)
          (set_io_faults [None; Some "EACCES"] fresh)) =
    Some (serialized (VObj [(FIELD_ACCESS_TOKEN, VStr "access-sandbox-1");
                            (FIELD_USER_STATUS, VStr "disconnected")])) /\
  userRecord
    (exec startup
       (boot None
          (disk (exec (swap_public_token (env_of sandbox_plaid) public_xyz)
                   (set_io_faults [None; Some "EACCES"] fresh)))
          [])) =
    VObj [(FIELD_ACCESS_TOKEN, VStr "access-sandbox-1");
          (FIELD_USER_STATUS, VStr "disconnected")].
Proof. split; reflexivity. Qed.

(** Nor from an exchange that answers without a token: the record ends
    connected with no access token. *)
Example exchange_without_token_breaks_invariant :
  userRecord
    (exec (swap_public_token
             (env_of {| linkTokenCreate := resolves_with (VObj []);
                        itemPublicTokenExchange := resolves_with (VObj []);
                        transactionsGet := resolves_with (VObj []);
                        accountsBalanceGet := resolves_with (VObj []);
                        assetReportCreate := resolves_with (VObj []);
                        sandboxItemFireWebhook := resolves_with (VObj []);
                        itemWebhookUpdate := resolves_with (VObj []) |})
             public_xyz) fresh) =
    VObj [(FIELD_ACCESS_TOKEN, VUndefined); (FIELD_USER_STATUS, VStr "connected")].
Proof. reflexivity. Qed.

(** ** Further properties *)

(** *** Values *)

Section ValueInduction.

Variable P : value -> Prop.
Hypothesis P_undefined : P VUndefined.
Hypothesis P_null : P VNull.
Hypothesis P_bool : forall b, P (VBool b).
Hypothesis P_num : forall n, P (VNum n).
Hypothesis P_str : forall s, P (VStr s).
Hypothesis P_arr : forall elems named, Forall P elems -> P (VArr elems named).
Hypothesis P_obj : forall props, P (VObj props).

(** Induction on a value through the elements of its arrays. *)
Fixpoint value_elems_ind (v : value) : P v :=
  match v with
  | VUndefined => P_undefined
  | VNull => P_null
  | VBool b => P_bool b
  | VNum n => P_num n
  | VStr s => P_str s
  | VArr elems named =>
      P_arr elems named
        ((fix all (l : list value) : Forall P l :=
            match l with
            | [] => Forall_nil P
            | x :: rest => Forall_cons x (value_elems_ind x) (all rest)
            end) elems)
  | VObj props => P_obj props
  end.

End ValueInduction.

(** The only exception of a conversion to string. *)
Lemma ToString_throws v e :
  ToString v = Throw e -> e = type_error "Cannot convert object to primitive value".
Proof.
  revert e. induction v as [ | | b | n | s | elems named IH | props ] using value_elems_ind;
    intros e; simpl; try discriminate.
  - destruct b; discriminate.
  - destruct (has_key "toString" named); [intros E; now inversion E|].
    destruct (has_key "join" named); [discriminate|].
    induction IH as [|x rest Hx _ IHrest]; [discriminate|].
    destruct (is_nullish x).
    + destruct rest as [|y rest']; [discriminate|].
      match goal with
      | |- match ?j with _ => _ end = _ -> _ => destruct j as [sr|e'] eqn:Ej
      end; [discriminate|].
      intros E; inversion E; subst. now apply IHrest.
    + destruct (ToString x) as [sx|e'] eqn:Ex.
      * destruct rest as [|y rest']; [discriminate|].
        match goal with
        | |- match ?j with _ => _ end = _ -> _ => destruct j as [sr|e''] eqn:Ej
        end; [discriminate|].
        intros E; inversion E; subst. now apply IHrest.
      * intros E; inversion E; subst. now apply Hx.
  - destruct (has_key "toString" props); [intros E; now inversion E | discriminate].
Qed.

Lemma ToString_throws_error v e : ToString v = Throw e -> reported_error e = true.
Proof. intros E. now rewrite (ToString_throws _ _ E). Qed.

Lemma get_prop_throws o k e : get_prop o k = Throw e -> exists msg, e = type_error msg.
Proof. destruct o; simpl; intros E; inversion E; eauto. Qed.

Lemma get_prop_throws_error o k e : get_prop o k = Throw e -> reported_error e = true.
Proof. intros E. now destruct (get_prop_throws _ _ _ E) as (msg & ->). Qed.

Lemma set_prop_throws_error o k v e : set_prop o k v = Throw e -> reported_error e = true.
Proof. destruct o; simpl; intros E; inversion E; reflexivity. Qed.

(** *** Every webhook is answered 200 or 500 *)

Lemma logs_or_throws_log line : logs_or_throws (console_log [VStr line]).
Proof. left. apply logs_constant. Qed.

Lemma logs_or_throws_to_string v (line : string -> string) :
  logs_or_throws (shown <- to_string v;; console_log [VStr (line shown)]).
Proof.
  destruct (ToString v) as [t|e] eqn:E.
  - left. exists (line t). intros s. cbv [bind to_string lift]. now rewrite E.
  - right. exists "Cannot convert object to primitive value". intros s.
    cbv [bind to_string lift]. now rewrite E, (ToString_throws _ _ E).
Qed.

Lemma logs_or_throws_get o k (rest : value -> M unit) :
  (forall v, logs_or_throws (rest v)) -> logs_or_throws (v <- get o k;; rest v).
Proof.
  intros Hrest. destruct (get_prop o k) as [v|e] eqn:E.
  - destruct (Hrest v) as [(line & Hline) | (msg & Hmsg)].
    + left. exists line. intros s. cbv [bind get lift]. rewrite E. apply Hline.
    + right. exists msg. intros s. cbv [bind get lift]. rewrite E. apply Hmsg.
  - right. destruct (get_prop_throws _ _ _ E) as (msg & ->). exists msg.
    intros s. cbv [bind get lift]. now rewrite E.
Qed.

Lemma logs_or_throws_if (b : bool) (c1 c2 : M unit) :
  logs_or_throws c1 -> logs_or_throws c2 -> logs_or_throws (if b then c1 else c2).
Proof. now destruct b. Qed.

Create HintDb js_logs.
#[local] Hint Resolve logs_or_throws_log logs_or_throws_if logs_or_throws_get : js_logs.
#[local] Hint Extern 1 (logs_or_throws (bind (to_string _) _)) =>
  apply (logs_or_throws_to_string _ (fun shown => _)) : js_logs.

Lemma handleItemWebhook_logs_or_throws code body :
  logs_or_throws (handleItemWebhook code body).
Proof. unfold handleItemWebhook. auto 20 with js_logs. Qed.

Lemma handleTransactionsWebhook_logs_or_throws code body :
  logs_or_throws (handleTransactionsWebhook code body).
Proof. unfold handleTransactionsWebhook. auto 20 with js_logs. Qed.

Lemma handleAssetsWebhook_logs_or_throws code body :
  logs_or_throws (handleAssetsWebhook code body).
Proof. unfold handleAssetsWebhook. auto 20 with js_logs. Qed.

#[local] Hint Resolve handleItemWebhook_logs_or_throws
  handleTransactionsWebhook_logs_or_throws handleAssetsWebhook_logs_or_throws : js_logs.

Lemma error_body_type_error msg : error_body (type_error msg) = other_error.
Proof. reflexivity. Qed.

(** The route handler around any dispatch that logs one line or throws a
    [TypeError]. *)
Lemma webhook_route_answers (dispatch : value -> value -> M unit) body s :
  (forall product code, logs_or_throws (dispatch product code)) ->
  (exists line,
     try_catch
       (console_log [VStr "this is the webhook response"];;
        console_dir body;;
        product <- get body "webhook_type";;
        code <- get body "webhook_code";;
        dispatch product code;;
        res_json (VObj [("status", VStr "received")]))
       next s =
       (Ok tt,
        appends [ConsoleLog [VStr "this is the webhook response"];
                 ConsoleDir body;
                 ConsoleLog [VStr line];
                 Respond 200 status_received] s)) \/
  (exists msg,
     try_catch
       (console_log [VStr "this is the webhook response"];;
        console_dir body;;
        product <- get body "webhook_type";;
        code <- get body "webhook_code";;
        dispatch product code;;
        res_json (VObj [("status", VStr "received")]))
       next s =
       (Ok tt,
        appends [ConsoleLog [VStr "this is the webhook response"];
                 ConsoleDir body;
                 ConsoleError [VStr "Your error:"];
                 ConsoleError [type_error msg];
                 Respond 500 other_error] s)).
Proof.
  intros Hdispatch.
  cbv [try_catch bind get lift console_log console_dir res_json modify].
  destruct (get_prop body "webhook_type") as [product|e] eqn:E1.
  - destruct (get_prop body "webhook_code") as [code|e] eqn:E2.
    + destruct (Hdispatch product code) as [(line & Hline) | (msg & Hmsg)].
      * left. exists line. rewrite Hline. now gather.
      * right. exists msg. rewrite Hmsg, next_type_error. now gather.
    + right. destruct (get_prop_throws _ _ _ E2) as (msg & ->). exists msg.
      rewrite next_type_error. now gather.
  - right. destruct (get_prop_throws _ _ _ E1) as (msg & ->). exists msg.
    rewrite next_type_error. now gather.
Qed.

(** X2.  Whatever its body, a webhook is answered exactly one of two
    ways: 200 [{status: "received"}] after the body and one line were
    logged, or, when the dispatch threw, 500 with the generic
    [OTHER_ERROR] payload after the [TypeError] was logged.  The handler
    returns in both cases and nothing else happens. *)
Theorem receive_webhook_answers_200_or_500 body s :
  (exists line,
     receive_webhook body s =
       (Ok tt,
        appends [ConsoleLog [VStr "this is the webhook response"];
                 ConsoleDir body;
                 ConsoleLog [VStr line];
                 Respond 200 status_received] s)) \/
  (exists msg,
     receive_webhook body s =
       (Ok tt,
        appends [ConsoleLog [VStr "this is the webhook response"];
                 ConsoleDir body;
                 ConsoleError [VStr "Your error:"];
                 ConsoleError [type_error msg];
                 Respond 500 other_error] s)).
Proof.
  apply (webhook_route_answers
           (fun product code =>
              if strict_eq_str product WebhookType_Item then handleItemWebhook code body
              else if strict_eq_str product WebhookType_Transactions
              then handleTransactionsWebhook code body
              else if strict_eq_str product WebhookType_Assets
              then handleAssetsWebhook code body
              else shown <- to_string product;;
                   console_log [VStr ("Can't handle webhook product " ++ shown)])).
  intros product code. auto 20 with js_logs.
Qed.

(** *** Frames *)

#[export] Instance same_on_frame {B} (f : server -> B) : Frame (same_on f).
Proof.
  split; unfold same_on.
  - reflexivity.
  - intros s1 s2 s3 H12 H23. congruence.
Qed.

#[export] Instance extends_frame (p : event -> bool) : Frame (extends p).
Proof.
  split.
  - intros s. exists []. split; [now rewrite app_nil_r | reflexivity].
  - intros s1 s2 s3 (evs1 & H1 & Hp1) (evs2 & H2 & Hp2).
    exists (evs1 ++ evs2)%list. split.
    + now rewrite H2, H1, app_assoc.
    + now rewrite forallb_app, Hp1, Hp2.
Qed.

Section Framed.

Context {R : server -> server -> Prop} `{!Frame R}.

Lemma framed_ret {A} (a : A) : keeps R (ret a).
Proof. apply keeps_ret, frame_refl. Qed.

Lemma framed_throw {A} e : keeps R (@throw A e).
Proof. intros s. apply frame_refl. Qed.

Lemma framed_lift {A} (r : result A) : keeps R (lift r).
Proof. apply keeps_lift, frame_refl. Qed.

Lemma framed_gets {A} (f : server -> A) : keeps R (gets f).
Proof. apply keeps_gets, frame_refl. Qed.

Lemma framed_bind {A B} (c : M A) (k : A -> M B) :
  keeps R c -> (forall a, keeps R (k a)) -> keeps R (bind c k).
Proof. apply keeps_bind, frame_trans. Qed.

Lemma framed_try_catch {A} (c : M A) (h : value -> M A) :
  keeps R c -> (forall e, keeps R (h e)) -> keeps R (try_catch c h).
Proof. apply keeps_try_catch, frame_trans. Qed.

End Framed.

Lemma same_on_modify {B} (f : server -> B) g :
  (forall s, f (g s) = f s) -> keeps (same_on f) (modify g).
Proof. intros Hg. now apply keeps_modify. Qed.

Lemma same_on_take_fault {B} (f : server -> B) :
  (forall s rest, f (set_io_faults rest s) = f s) -> keeps (same_on f) take_fault.
Proof.
  intros Hf s. unfold take_fault, same_on.
  destruct (io_faults s); [reflexivity | apply Hf].
Qed.

Lemma extends_emit p e : p e = true -> keeps (extends p) (modify (emit e)).
Proof.
  intros He. apply keeps_modify. intros s. exists [e].
  split; [reflexivity | simpl; now rewrite He].
Qed.

Lemma extends_modify p g :
  (forall s, trace (g s) = trace s) -> keeps (extends p) (modify g).
Proof.
  intros Hg. apply keeps_modify. intros s. exists [].
  split; [now rewrite Hg, app_nil_r | reflexivity].
Qed.

Lemma extends_take_fault p : keeps (extends p) take_fault.
Proof.
  intros s. exists []. unfold take_fault.
  destruct (io_faults s); simpl; now rewrite app_nil_r.
Qed.

Create HintDb js_frame.
#[local] Hint Resolve same_on_frame extends_frame framed_ret framed_throw framed_lift
  framed_gets framed_bind framed_try_catch extends_emit extends_take_fault : js_frame.
#[local] Hint Extern 1 (keeps (same_on _) (modify _)) =>
  apply same_on_modify; intros ?; reflexivity : js_frame.
#[local] Hint Extern 1 (keeps (same_on _) take_fault) =>
  apply same_on_take_fault; intros ? ?; reflexivity : js_frame.
#[local] Hint Extern 2 (keeps (extends _) (modify _)) =>
  apply extends_modify; intros ?; reflexivity : js_frame.
#[local] Hint Extern 1 (_ = true) => reflexivity : js_frame.
#[local] Hint Extern 1 (_ (send_event _ ?body) = true) =>
  destruct body; reflexivity : js_frame.
#[local] Hint Extern 3 (keeps _ (match ?x with _ => _ end)) => destruct x : js_frame.

(** Unfolds a handler down to the monad and the state changes, and chains
    the frame through it. *)
Ltac frame :=
  unfold handle, get_user_info, generate_link_token, swap_public_token, transactions,
    balances, create_asset_report, fire_test_webhook, update_webhook, receive_webhook,
    handleItemWebhook, handleTransactionsWebhook, handleAssetsWebhook,
    startup, getUserRecord, updateUserRecord, next, errorHandler,
    fs_readFile, fs_writeFile, plaid_call,
    console_log, console_error, console_dir, res_json, res_status_send, get, to_string;
  cbv zeta;
  auto 80 with js_frame.

Section Frames.

Context `{JsonRuntime}.

Lemma handle_same_link_config env rq :
  keeps (same_on basicLinkTokenObject) (handle env rq).
Proof. destruct rq; frame. Qed.

Lemma handle_private_writes env rq : keeps (extends private_write) (handle env rq).
Proof. destruct rq; frame. Qed.

Lemma handle_same_store env rq :
  is_exchange rq = false ->
  keeps (same_on (fun s => (userRecord s, disk s, io_faults s))) (handle env rq).
Proof. destruct rq; try discriminate; intros _; frame. Qed.

Lemma startup_same_link_config : keeps (same_on basicLinkTokenObject) startup.
Proof. frame. Qed.

Lemma startup_same_disk : keeps (same_on disk) startup.
Proof. frame. Qed.

Lemma updateUserRecord_no_response key val :
  keeps (extends no_response) (updateUserRecord key val).
Proof. frame. Qed.

End Frames.

(** *** One response per request *)

Lemma responses_app evs1 evs2 :
  responses (evs1 ++ evs2) = (responses evs1 ++ responses evs2)%list.
Proof. apply filter_app. Qed.

Lemma no_response_responses evs : forallb no_response evs = true -> responses evs = [].
Proof.
  induction evs as [|e evs IH]; [reflexivity|].
  simpl. intros Hall. apply andb_prop in Hall. destruct Hall as [He Hevs].
  unfold no_response in He. apply negb_true_iff in He. rewrite He. now apply IH.
Qed.

Lemma throws_errors_ret {A} (a : A) : throws_errors (ret a).
Proof. intros s e. discriminate. Qed.

Lemma throws_errors_gets {A} (f : server -> A) : throws_errors (gets f).
Proof. intros s e. discriminate. Qed.

Lemma throws_errors_modify f : throws_errors (modify f).
Proof. intros s e. discriminate. Qed.

Lemma throws_errors_throw {A} e : reported_error e = true -> throws_errors (@throw A e).
Proof. intros He s e' E. simpl in E. now inversion E; subst. Qed.

Lemma throws_errors_lift {A} (r : result A) :
  (forall e, r = Throw e -> reported_error e = true) -> throws_errors (lift r).
Proof. intros Hr s e E. now apply Hr. Qed.

Lemma throws_errors_bind {A B} (c : M A) (k : A -> M B) :
  throws_errors c -> (forall a, throws_errors (k a)) -> throws_errors (bind c k).
Proof.
  intros Hc Hk s e. unfold bind. specialize (Hc s).
  destruct (c s) as [[a|e'] s1]; simpl in *.
  - apply Hk.
  - intros E. inversion E; subst. now apply Hc.
Qed.

Lemma throws_errors_try_catch {A} (c : M A) (h : value -> M A) :
  (forall e, throws_errors (h e)) -> throws_errors (try_catch c h).
Proof.
  intros Hh s e. unfold try_catch.
  destruct (c s) as [[a|e'] s1]; simpl.
  - discriminate.
  - apply Hh.
Qed.

Lemma silent_ret {A} (a : A) : silent (ret a).
Proof. split; [apply framed_ret | apply throws_errors_ret]. Qed.

Lemma silent_gets {A} (f : server -> A) : silent (gets f).
Proof. split; [apply framed_gets | apply throws_errors_gets]. Qed.

Lemma silent_get o k : silent (get o k).
Proof.
  split; [apply framed_lift | apply throws_errors_lift, get_prop_throws_error].
Qed.

Lemma silent_to_string v : silent (to_string v).
Proof.
  split; [apply framed_lift | apply throws_errors_lift, ToString_throws_error].
Qed.

Lemma silent_console_log args : silent (console_log args).
Proof. split; [now apply extends_emit | apply throws_errors_modify]. Qed.

Lemma silent_console_dir v : silent (console_dir v).
Proof. split; [now apply extends_emit | apply throws_errors_modify]. Qed.

Lemma silent_set_webhookUrl u : silent (modify (set_webhookUrl u)).
Proof. split; [now apply extends_modify | apply throws_errors_modify]. Qed.

Lemma silent_plaid_call op f request : rejects_errors f -> silent (plaid_call op f request).
Proof.
  intros Hf. split.
  - unfold plaid_call. apply framed_bind; [now apply extends_emit|].
    intros _. apply framed_lift.
  - unfold plaid_call. apply throws_errors_bind; [apply throws_errors_modify|].
    intros _. apply throws_errors_lift. apply Hf.
Qed.

Lemma silent_bind {A B} (c : M A) (k : A -> M B) :
  silent c -> (forall a, silent (k a)) -> silent (bind c k).
Proof.
  intros [Hc1 Hc2] Hk. split.
  - apply framed_bind; [assumption | intros a; apply Hk].
  - apply throws_errors_bind; [assumption | intros a; apply Hk].
Qed.

Lemma silent_if {A} (b : bool) (c1 c2 : M A) :
  silent c1 -> silent c2 -> silent (if b then c1 else c2).
Proof. now destruct b. Qed.

Lemma silent_updateUserRecord `{JsonRuntime} key val : silent (updateUserRecord key val).
Proof.
  split; [apply updateUserRecord_no_response|].
  unfold updateUserRecord.
  apply throws_errors_bind; [apply throws_errors_gets|]. intros r.
  apply throws_errors_bind; [apply throws_errors_lift, set_prop_throws_error|]. intros r'.
  apply throws_errors_bind; [apply throws_errors_modify|]. intros _.
  apply throws_errors_try_catch. intros e. apply throws_errors_modify.
Qed.

Create HintDb js_silent.
#[local] Hint Resolve silent_ret silent_gets silent_get silent_to_string silent_console_log
  silent_console_dir silent_set_webhookUrl silent_plaid_call silent_bind silent_if
  silent_updateUserRecord : js_silent.

Lemma handleItemWebhook_silent code body : silent (handleItemWebhook code body).
Proof. unfold handleItemWebhook. auto 20 with js_silent. Qed.

Lemma handleTransactionsWebhook_silent code body :
  silent (handleTransactionsWebhook code body).
Proof. unfold handleTransactionsWebhook. auto 20 with js_silent. Qed.

Lemma handleAssetsWebhook_silent code body : silent (handleAssetsWebhook code body).
Proof. unfold handleAssetsWebhook. auto 20 with js_silent. Qed.

#[local] Hint Resolve handleItemWebhook_silent handleTransactionsWebhook_silent
  handleAssetsWebhook_silent : js_silent.

Lemma answers_res_json body : answers (res_json body).
Proof. intros s. exists [Respond 200 body]. split; [reflexivity|]. now exists body. Qed.

Lemma answers_bind {A} (c : M A) (k : A -> M unit) :
  silent c -> (forall a, answers (k a)) -> answers (bind c k).
Proof.
  intros [Hc Hthrow] Hk s. unfold bind.
  destruct (Hc s) as (evs1 & Htrace1 & Hquiet). specialize (Hthrow s).
  apply no_response_responses in Hquiet.
  destruct (c s) as [[a|e] s1]; simpl in *.
  - destruct (Hk a s1) as (evs2 & Htrace2 & Hres).
    exists (evs1 ++ evs2)%list. split.
    + now rewrite Htrace2, Htrace1, app_assoc.
    + rewrite responses_app, Hquiet. exact Hres.
  - exists evs1. repeat split; auto.
Qed.

Lemma replies_next e : reported_error e = true -> replies (next e).
Proof.
  intros He s. apply andb_prop in He. destruct He as [Herr Hdata].
  apply negb_true_iff in Hdata.
  rewrite (next_run _ _ Herr Hdata). split; [reflexivity|].
  eexists _, 500%Z, (error_body e). split; [reflexivity|]. split; [reflexivity | now right].
Qed.

Lemma replies_after_log args (c : M unit) : replies c -> replies (console_log args;; c).
Proof.
  intros Hc s. cbv [bind console_log modify].
  destruct (Hc (emit (ConsoleLog args) s)) as (Hok & evs & status & body & Htrace & Hres & Hst).
  split; [assumption|].
  exists (ConsoleLog args :: evs), status, body. split; [|split; assumption].
  rewrite Htrace. simpl. now rewrite <- app_assoc.
Qed.

Lemma replies_try_catch (c : M unit) (h : value -> M unit) :
  answers c -> (forall e, reported_error e = true -> replies (h e)) ->
  replies (try_catch c h).
Proof.
  intros Hc Hh s. unfold try_catch.
  destruct (Hc s) as (evs1 & Htrace1 & Hres1).
  destruct (c s) as [[[]|e] s1]; simpl in *.
  - split; [reflexivity|]. destruct Hres1 as (body & Hbody).
    exists evs1, 200%Z, body. repeat split; auto.
  - destruct Hres1 as [Hnone He].
    destruct (Hh e He s1) as (Hok & evs2 & status & body & Htrace2 & Hres2 & Hst).
    split; [assumption|].
    exists (evs1 ++ evs2)%list, status, body. split; [|split; [|assumption]].
    + now rewrite Htrace2, Htrace1, app_assoc.
    + now rewrite responses_app, Hnone.
Qed.

#[local] Hint Resolve answers_res_json answers_bind replies_next replies_after_log : js_silent.

Section OneResponse.

Context `{JsonRuntime}.

(** X1.  Every request gets exactly one response.  As long as the remote
    client rejects with errors that Express takes for errors (truthy values
    other than ['route'] and ['router']) and whose nested data is not a bare
    number (which [res.send] would read as a status), each route handler
    returns normally (nothing escapes its [try]/[catch] and the error
    responder), and what it emits holds one HTTP response, of status 200 or
    500. *)
Theorem handle_replies_once env rq s :
  client_rejects_errors (plaidClient env) ->
  fst (handle env rq s) = Ok tt /\
  exists evs status body,
    trace (exec (handle env rq) s) = (trace s ++ evs)%list /\
    responses evs = [Respond status body] /\
    (status = 200 \/ status = 500)%Z.
Proof.
  intros (Hlink & Hexchange & Htransactions & Hbalances & Hreport & Hfire & Hupdate).
  revert s. change (replies (handle env rq)).
  destruct rq; simpl handle;
    unfold get_user_info, generate_link_token, swap_public_token, transactions, balances,
      create_asset_report, fire_test_webhook, update_webhook, receive_webhook;
    (apply replies_try_catch; [auto 30 with js_silent | intros e He; auto with js_silent]).
Qed.

End OneResponse.

Lemma failing_rejects_errors : client_rejects_errors (plaidClient (env_of failing_plaid)).
Proof. repeat split; intros request e E; inversion E; reflexivity. Defined.

(** The remote service rejects the call of the route with
    [ITEM_LOGIN_REQUIRED]; the one response is the 500 that relays its
    report. *)
Lemma handle_replies_once_witness :
  client_rejects_errors (plaidClient (env_of failing_plaid)) /\
  transactionsGet (plaidClient (env_of failing_plaid)) VNull = Throw login_required /\
  last (trace (exec (handle (env_of failing_plaid) GET_transactions) linked)) (ConsoleLog [])
    = Respond 500
        (VObj [("error_code", VStr "ITEM_LOGIN_REQUIRED");
               ("error_message", VStr "the login details have changed")]) /\
  fst (handle (env_of failing_plaid) GET_transactions linked) = Ok tt /\
  exists evs status body,
    trace (exec (handle (env_of failing_plaid) GET_transactions) linked)
      = (trace linked ++ evs)%list /\
    responses evs = [Respond status body] /\
    (status = 200 \/ status = 500)%Z.
Proof.
  split; [exact failing_rejects_errors|].
  split; [reflexivity|]. split; [reflexivity|].
  exact (handle_replies_once (env_of failing_plaid) GET_transactions linked
           failing_rejects_errors).
Defined.

(** *** The store and the start-up *)

Section Loading.

Context `{JsonRuntime}.

(** X10.  [getUserRecord] never throws and touches nothing: it resolves
    with the parsed store when the read and the parse succeed, and with
    [null] in every other case (no file, a failed read, text that does
    not parse), after one read of [user_data.json] and one console line. *)
Theorem getUserRecord_loads_or_null s :
  fst (getUserRecord s) = Ok (loaded s) /\
  userRecord (exec getUserRecord s) = userRecord s /\
  disk (exec getUserRecord s) = disk s /\
  webhookUrl (exec getUserRecord s) = webhookUrl s /\
  exists args,
    trace (exec getUserRecord s) =
      (trace s ++ [FsReadFile USER_DATA_FILE; ConsoleLog args])%list.
Proof.
  destruct s as [rec url cfg d faults tr]. unfold loaded, fault_at. simpl.
  destruct faults as [|[code|] rest]; simpl.
  - destruct d as [text|]; run.
    + destruct (JSON_parse text) as [v|]; cbn;
        repeat split; eexists; now rewrite <- app_assoc.
    + repeat split; eexists; now rewrite <- app_assoc.
  - run. destruct (String.eqb code "ENOENT"); cbn;
      repeat split; eexists; now rewrite <- app_assoc.
  - destruct d as [text|]; run.
    + destruct (JSON_parse text) as [v|]; cbn;
        repeat split; eexists; now rewrite <- app_assoc.
    + repeat split; eexists; now rewrite <- app_assoc.
Qed.

(** X9.  The start-up always completes, whatever the store holds and
    whatever the file system does: the record in memory is the value
    loaded from the store, or the default record when that value is
    [null] (no store, a failed read, unparsable text, or the JSON text
    [null]); it is never [null] or [undefined] afterwards, and the store
    is only read, never written. *)
Theorem startup_always_completes url store faults :
  fst (startup (boot url store faults)) = Ok tt /\
  userRecord (exec startup (boot url store faults)) =
    (if is_nullish (loaded (boot url store faults)) then default_record
     else loaded (boot url store faults)) /\
  is_nullish (userRecord (exec startup (boot url store faults))) = false /\
  disk (exec startup (boot url store faults)) = store /\
  exists args,
    trace (exec startup (boot url store faults)) =
      [FsReadFile USER_DATA_FILE; ConsoleLog args].
Proof.
  unfold loaded, fault_at. simpl.
  destruct faults as [|[code|] rest]; simpl.
  - destruct store as [text|]; run.
    + destruct (JSON_parse text) as [v|]; cbn.
      * destruct (is_nullish v) eqn:Hv; cbn; rewrite ?Hv; repeat split; eexists; reflexivity.
      * repeat split; eexists; reflexivity.
    + repeat split; eexists; reflexivity.
  - run. destruct (String.eqb code "ENOENT"); cbn; repeat split; eexists; reflexivity.
  - destruct store as [text|]; run.
    + destruct (JSON_parse text) as [v|]; cbn.
      * destruct (is_nullish v) eqn:Hv; cbn; rewrite ?Hv; repeat split; eexists; reflexivity.
      * repeat split; eexists; reflexivity.
    + repeat split; eexists; reflexivity.
Qed.

Lemma startup_record_defined url store faults :
  is_nullish (userRecord (exec startup (boot url store faults))) = false.
Proof.
  destruct faults as [|[code|] rest].
  - destruct store as [text|]; [|reflexivity].
    run. destruct (JSON_parse text) as [v|]; cbn; [|reflexivity].
    destruct (is_nullish v) eqn:Hv; cbn; [reflexivity | exact Hv].
  - run. now destruct (String.eqb code "ENOENT").
  - destruct store as [text|]; [|reflexivity].
    run. destruct (JSON_parse text) as [v|]; cbn; [|reflexivity].
    destruct (is_nullish v) eqn:Hv; cbn; [reflexivity | exact Hv].
Qed.

(** X11.  An update changes one field and nothing else in memory: the
    record reads the new value under the key and what it read before
    under every other key, whether the write succeeds or fails; and a
    write that succeeds replaces the store with the serialization of the
    whole record. *)
Theorem updateUserRecord_sets_one_field s key val r :
  set_prop (userRecord s) key val = Ok r ->
  fst (updateUserRecord key val s) = Ok tt /\
  userRecord (exec (updateUserRecord key val) s) = r /\
  get_prop r key = Ok val /\
  (forall k, String.eqb key k = false -> get_prop r k = get_prop (userRecord s) k) /\
  webhookUrl (exec (updateUserRecord key val) s) = webhookUrl s /\
  (forall text,
     JSON_stringify r = Some text ->
     fault_at 0 s = None ->
     disk (exec (updateUserRecord key val) s) = Some text).
Proof.
  intros Hset.
  assert (Hget : get_prop r key = Ok val) by (eapply get_set_same; eauto).
  assert (Hother : forall k, String.eqb key k = false ->
                             get_prop r k = get_prop (userRecord s) k)
    by (intros k Hk; eapply get_set_other; eauto).
  destruct s as [rec url cfg d faults tr]; unfold fault_at; simpl in *.
  run. rewrite Hset. cbn.
  destruct (JSON_stringify r) as [text|]; cbn.
  - destruct faults as [|[code|] rest]; cbn; repeat split; auto;
      intros text' E; inversion E; subst; auto; discriminate.
  - repeat split; auto; discriminate.
Qed.

End Loading.

Lemma updateUserRecord_sets_one_field_witness :
  fst (updateUserRecord FIELD_ACCESS_TOKEN (VStr "access-sandbox-1") fresh) = Ok tt /\
  get_prop (userRecord (exec (updateUserRecord FIELD_ACCESS_TOKEN (VStr "access-sandbox-1")) fresh))
    FIELD_USER_STATUS = Ok (VStr "disconnected").
Proof.
  destruct (updateUserRecord_sets_one_field fresh FIELD_ACCESS_TOKEN (VStr "access-sandbox-1")
              (VObj [(FIELD_ACCESS_TOKEN, VStr "access-sandbox-1");
                     (FIELD_USER_STATUS, VStr "disconnected")]))
    as (Hok & Hrec & _ & Hother & _); [reflexivity|].
  split; [exact Hok|]. rewrite Hrec. now rewrite (Hother FIELD_USER_STATUS eq_refl).
Defined.

(** *** The routes *)

Lemma get_user_info_run s :
  is_nullish (userRecord s) = false ->
  get_user_info s =
    (Ok tt,
     appends [Respond 200 (VObj [("user_status", field (userRecord s) FIELD_USER_STATUS)])] s).
Proof.
  intros Hnn. unfold get_user_info.
  cbv [try_catch bind gets get lift res_json modify].
  now rewrite (get_prop_field _ _ Hnn).
Qed.

Lemma next_extends e s : exists evs, snd (next e s) = appends evs s.
Proof.
  destruct (next_emits_only e) as (r & evs & _ & Hrun).
  exists evs. now rewrite Hrun.
Qed.

Section Routes.

Context `{JsonRuntime}.

(** The record the exchange can leave in memory: the one it found, or
    that one with the token assigned and then the status. *)
Lemma swap_public_token_record env body s :
  userRecord (exec (swap_public_token env body) s) = userRecord s \/
  exists token r1,
    set_prop (userRecord s) FIELD_ACCESS_TOKEN token = Ok r1 /\
    set_prop r1 FIELD_USER_STATUS (VStr "connected")
      = Ok (userRecord (exec (swap_public_token env body) s)).
Proof.
  unfold exec, swap_public_token.
  cbv [try_catch bind get lift plaid_call modify to_string].
  destruct (get_prop body "public_token") as [pt|e]; cbn;
    [|left; now rewrite same_record_next].
  destruct (itemPublicTokenExchange (plaidClient env) (VObj [("public_token", pt)]))
    as [response|e]; cbn; [|left; now rewrite same_record_next].
  destruct (get_prop response "data") as [data|e]; cbn;
    [|left; now rewrite same_record_next].
  assert (Hshown : exists shown,
            ToString (match JSON_stringify data with
                      | Some t => VStr t
                      | None => VUndefined
                      end) = Ok shown)
    by (destruct (JSON_stringify data); simpl; eauto).
  destruct Hshown as (shown & ->).
  destruct (get_prop data "access_token") as [token|e]; cbn;
    [|left; now rewrite same_record_next].
  match goal with
  | |- context [updateUserRecord FIELD_ACCESS_TOKEN token ?s1] =>
      destruct (updateUserRecord_cases FIELD_ACCESS_TOKEN token s1)
        as [(r1 & s2 & Hset1 & -> & Hr1) | (e & Hset1 & ->)]
  end; [|left; now rewrite same_record_next].
  destruct (updateUserRecord_cases FIELD_USER_STATUS (VStr "connected") s2)
    as [(r2 & s3 & Hset2 & -> & Hr2) | (e & Hset2 & _)].
  - right. exists token, r1. cbn. rewrite Hr2. rewrite Hr1 in Hset2. now split.
  - rewrite Hr1 in Hset2.
    destruct (set_prop_again _ _ _ _ FIELD_USER_STATUS (VStr "connected") Hset1) as (r' & Hr').
    congruence.
Qed.

Lemma handle_record_defined env rq s :
  is_nullish (userRecord s) = false ->
  is_nullish (userRecord (exec (handle env rq) s)) = false.
Proof.
  intros Hs.
  destruct (is_exchange rq) eqn:Hrq.
  - destruct rq; try discriminate Hrq. simpl handle.
    destruct (swap_public_token_record env req_body s) as [-> | (token & r1 & _ & Hset)].
    + exact Hs.
    + exact (set_prop_not_nullish _ _ _ _ Hset).
  - pose proof (handle_same_store env rq Hrq s) as Hsame.
    unfold same_on in Hsame. unfold exec. now inversion Hsame as [[Hrec Hdisk Hfaults]]; rewrite Hrec.
Qed.

Lemma serves_record_defined s0 s :
  is_nullish (userRecord s0) = false -> serves s0 s -> is_nullish (userRecord s) = false.
Proof.
  intros H0. induction 1 as [|env rq s Hserves IH]; [exact H0|].
  now apply handle_record_defined.
Qed.

(** X3.  Once the process has started, [get_user_info] cannot fail: in
    every state the process reaches, whatever the requests before, the
    record is defined and the route answers 200 with the [userStatus] it
    holds, changing nothing; asked twice in a row it gives the same
    answer twice. *)
Theorem get_user_info_always_answers url store faults s :
  serves (exec startup (boot url store faults)) s ->
  is_nullish (userRecord s) = false /\
  get_user_info s =
    (Ok tt,
     appends [Respond 200 (VObj [("user_status", field (userRecord s) FIELD_USER_STATUS)])] s) /\
  (get_user_info;; get_user_info) s =
    (Ok tt,
     appends [Respond 200 (VObj [("user_status", field (userRecord s) FIELD_USER_STATUS)]);
              Respond 200 (VObj [("user_status", field (userRecord s) FIELD_USER_STATUS)])] s).
Proof.
  intros Hserves.
  pose proof (serves_record_defined _ _ (startup_record_defined url store faults) Hserves)
    as Hnn.
  split; [exact Hnn|]. split; [now apply get_user_info_run|].
  unfold bind. rewrite (get_user_info_run _ Hnn).
  rewrite get_user_info_run by exact Hnn. now gather.
Qed.

Lemma serves_same_link_config s0 s :
  serves s0 s -> basicLinkTokenObject s = basicLinkTokenObject s0.
Proof.
  induction 1 as [|env rq s Hserves IH]; [reflexivity|].
  unfold exec. now rewrite handle_same_link_config.
Qed.

(** X4.  The link-token configuration is fixed when the process starts:
    in every state the process reaches, also after [update_webhook]
    changed [webhookUrl], [generate_link_token] sends the remote service
    the configuration built from the start-up URL. *)
Theorem generate_link_token_sends_startup_url url store faults s env :
  serves (exec startup (boot url store faults)) s ->
  basicLinkTokenObject s = make_basicLinkTokenObject (initial_webhookUrl url) /\
  exists evs,
    trace (exec (generate_link_token env) s) =
      (trace s ++
       PlaidCall "linkTokenCreate" (make_basicLinkTokenObject (initial_webhookUrl url))
       :: evs)%list.
Proof.
  intros Hserves.
  assert (Hcfg : basicLinkTokenObject s = make_basicLinkTokenObject (initial_webhookUrl url)).
  { rewrite (serves_same_link_config _ _ Hserves).
    unfold exec. now rewrite startup_same_link_config. }
  split; [exact Hcfg|].
  unfold exec, generate_link_token.
  cbv [try_catch bind gets get lift plaid_call modify console_log res_json].
  rewrite Hcfg.
  destruct (linkTokenCreate (plaidClient env) _) as [response|e].
  - destruct (get_prop response "data") as [data|e].
    + eexists. cbn. rewrite <- !app_assoc. reflexivity.
    + destruct (next_extends e
                  (emit (ConsoleLog [VStr "Running into an error!"])
                     (emit (ConsoleLog [make_basicLinkTokenObject (initial_webhookUrl url)])
                        (emit (PlaidCall "linkTokenCreate"
                                 (make_basicLinkTokenObject (initial_webhookUrl url))) s))))
        as (evs & ->).
      eexists. cbn. rewrite <- !app_assoc. reflexivity.
  - destruct (next_extends e
                (emit (ConsoleLog [VStr "Running into an error!"])
                   (emit (PlaidCall "linkTokenCreate"
                            (make_basicLinkTokenObject (initial_webhookUrl url))) s)))
      as (evs & ->).
    eexists. cbn. rewrite <- !app_assoc. reflexivity.
Qed.

(** The rest of [update_webhook], once the URL is assigned. *)
Lemma update_webhook_tail_same_url env s :
  webhookUrl
    (snd (try_catch
            (r <- gets userRecord;;
             access_token <- get r FIELD_ACCESS_TOKEN;;
             url <- gets webhookUrl;;
             updateWebhook <- plaid_call "itemWebhookUpdate"
               (itemWebhookUpdate (plaidClient env))
               (VObj [("access_token", access_token); ("webhook", url)]);;
             data <- get updateWebhook "data";;
             res_json data)
            next s)) = webhookUrl s.
Proof.
  change (same_on webhookUrl s
            (snd (try_catch
                    (r <- gets userRecord;;
                     access_token <- get r FIELD_ACCESS_TOKEN;;
                     url <- gets webhookUrl;;
                     updateWebhook <- plaid_call "itemWebhookUpdate"
                       (itemWebhookUpdate (plaidClient env))
                       (VObj [("access_token", access_token); ("webhook", url)]);;
                     data <- get updateWebhook "data";;
                     res_json data)
                    next s))).
  revert s. change (keeps (same_on webhookUrl)
            (try_catch
                    (r <- gets userRecord;;
                     access_token <- get r FIELD_ACCESS_TOKEN;;
                     url <- gets webhookUrl;;
                     updateWebhook <- plaid_call "itemWebhookUpdate"
                       (itemWebhookUpdate (plaidClient env))
                       (VObj [("access_token", access_token); ("webhook", url)]);;
                     data <- get updateWebhook "data";;
                     res_json data)
                    next)).
  frame.
Qed.

Lemma update_webhook_url env body s :
  webhookUrl (exec (update_webhook env body) s) =
    (if is_nullish body then webhookUrl s else field body "newUrl").
Proof.
  destruct (is_nullish body) eqn:Hbody.
  - unfold exec, update_webhook. cbv [try_catch bind get lift].
    destruct body; try discriminate Hbody; simpl get_prop; cbv iota;
      match goal with
      | |- context [next ?e ?s0] => destruct (next_extends e s0) as (evs & ->)
      end; reflexivity.
  - pose proof (update_webhook_tail_same_url env (set_webhookUrl (field body "newUrl") s))
      as Htail.
    unfold exec, update_webhook.
    revert Htail. cbv [try_catch bind get lift modify].
    rewrite (get_prop_field _ _ Hbody). intros Htail. exact Htail.
Qed.

(** X5.  [update_webhook] assigns whatever the body holds under
    [newUrl], [undefined] when the field is absent, with no validation and
    before anything else: for every body that is not [null] or
    [undefined], and whatever the remote service answers, [webhookUrl] is
    that value afterwards; the record, the store and the link-token
    configuration are untouched.  A body that is [null] or [undefined]
    leaves [webhookUrl] as it was. *)
Theorem update_webhook_always_sets_url env body s :
  webhookUrl (exec (update_webhook env body) s) =
    (if is_nullish body then webhookUrl s else field body "newUrl") /\
  userRecord (exec (update_webhook env body) s) = userRecord s /\
  disk (exec (update_webhook env body) s) = disk s /\
  basicLinkTokenObject (exec (update_webhook env body) s) = basicLinkTokenObject s.
Proof.
  split; [apply update_webhook_url|].
  pose proof (handle_same_store env (POST_update_webhook body) eq_refl s) as Hstore.
  pose proof (handle_same_link_config env (POST_update_webhook body) s) as Hcfg.
  unfold same_on in Hstore, Hcfg. simpl handle in Hstore, Hcfg.
  inversion Hstore as [[Hrec Hdisk Hfaults]]. unfold exec. now repeat split.
Qed.

(** The request an asset report starts with. *)
Lemma create_asset_report_request env s :
  is_nullish (userRecord s) = false ->
  exists evs,
    trace (exec (create_asset_report env) s) =
      (trace s ++
       PlaidCall "assetReportCreate"
         (VObj [("access_tokens", VArr [field (userRecord s) FIELD_ACCESS_TOKEN] []);
                ("days_requested", VNum 30);
                ("options", VObj [("user", VObj [("first_name", VStr "Jane");
                                                 ("last_name", VStr "Foster")]);
                                  ("webhook", webhookUrl s)])])
       :: evs)%list.
Proof.
  intros Hnn. unfold exec, create_asset_report.
  cbv [try_catch bind gets get lift plaid_call modify res_json].
  rewrite (get_prop_field _ _ Hnn).
  destruct (assetReportCreate (plaidClient env) _) as [response|e].
  - destruct (get_prop response "data") as [data|e].
    + eexists. cbn. rewrite <- !app_assoc. reflexivity.
    + match goal with
      | |- context [next ?e ?s0] => destruct (next_extends e s0) as (evs & ->)
      end. eexists. cbn. rewrite <- !app_assoc. reflexivity.
  - match goal with
    | |- context [next ?e ?s0] => destruct (next_extends e s0) as (evs & ->)
    end. eexists. cbn. rewrite <- !app_assoc. reflexivity.
Qed.

(** X6.  A new webhook URL reaches the asset reports: after
    [update_webhook], whatever its outcome, [create_asset_report] asks the
    remote service for a report with the stored access token and the new
    URL as its webhook. *)
Theorem create_asset_report_uses_new_url env env' body s :
  is_nullish body = false ->
  is_nullish (userRecord s) = false ->
  exists evs,
    trace (exec (create_asset_report env') (exec (update_webhook env body) s)) =
      (trace (exec (update_webhook env body) s) ++
       PlaidCall "assetReportCreate"
         (VObj [("access_tokens", VArr [field (userRecord s) FIELD_ACCESS_TOKEN] []);
                ("days_requested", VNum 30);
                ("options", VObj [("user", VObj [("first_name", VStr "Jane");
                                                 ("last_name", VStr "Foster")]);
                                  ("webhook", field body "newUrl")])])
       :: evs)%list.
Proof.
  intros Hbody Hnn.
  pose proof (update_webhook_url env body s) as Hurl. rewrite Hbody in Hurl.
  assert (Hrec : userRecord (exec (update_webhook env body) s) = userRecord s)
    by apply update_webhook_same_record.
  destruct (create_asset_report_request env' (exec (update_webhook env body) s)) as (evs & Hevs).
  { now rewrite Hrec. }
  exists evs. rewrite Hevs. now rewrite Hrec, Hurl.
Qed.

(** X7.  Only the token exchange touches the record and the store: every
    other route leaves the record in memory, the content of the file and
    the file system as they were, whatever the remote service answers. *)
Theorem only_exchange_changes_store env rq s :
  is_exchange rq = false ->
  userRecord (exec (handle env rq) s) = userRecord s /\
  disk (exec (handle env rq) s) = disk s /\
  io_faults (exec (handle env rq) s) = io_faults s.
Proof.
  intros Hrq. pose proof (handle_same_store env rq Hrq s) as Hsame.
  unfold same_on in Hsame. inversion Hsame as [[Hrec Hdisk Hfaults]].
  unfold exec. now repeat split.
Qed.

(** X8.  No route reads the store, and every write a route makes goes to
    [user_data.json] with mode [0o600]. *)
Theorem handle_writes_privately env rq s :
  exists evs,
    trace (exec (handle env rq) s) = (trace s ++ evs)%list /\
    forallb private_write evs = true.
Proof. exact (handle_private_writes env rq s). Qed.

End Routes.

Lemma get_user_info_always_answers_witness :
  serves fresh linked /\
  get_user_info linked =
    (Ok tt, appends [Respond 200 (VObj [("user_status", VStr "connected")])] linked).
Proof.
  assert (Hserves : serves (exec startup (boot None None [])) linked).
  { unfold linked.
    apply (serves_request _ (env_of sandbox_plaid) (POST_swap_public_token public_xyz)).
    apply serves_start. }
  split; [exact Hserves|].
  exact (proj1 (proj2 (get_user_info_always_answers None None [] linked Hserves))).
Defined.

Lemma generate_link_token_sends_startup_url_witness :
  webhookUrl
    (exec (update_webhook (env_of sandbox_plaid) (VObj [("newUrl", VStr "https://hooks.test/plaid")]))
       fresh) = VStr "https://hooks.test/plaid" /\
  basicLinkTokenObject
    (exec (update_webhook (env_of sandbox_plaid) (VObj [("newUrl", VStr "https://hooks.test/plaid")]))
       fresh) =
    make_basicLinkTokenObject (VStr "https://www.example.com/server/plaid_webhook").
Proof.
  split; [reflexivity|].
  refine (proj1 (generate_link_token_sends_startup_url None None [] _ (env_of sandbox_plaid) _)).
  apply (serves_request _ (env_of sandbox_plaid)
           (POST_update_webhook (VObj [("newUrl", VStr "https://hooks.test/plaid")]))).
  apply serves_start.
Defined.

Lemma create_asset_report_uses_new_url_witness :
  exists evs,
    trace (exec (create_asset_report (env_of sandbox_plaid))
             (exec (update_webhook (env_of failing_plaid)
                      (VObj [("newUrl", VStr "https://hooks.test/plaid")])) fresh)) =
      (trace (exec (update_webhook (env_of failing_plaid)
                      (VObj [("newUrl", VStr "https://hooks.test/plaid")])) fresh) ++
       PlaidCall "assetReportCreate"
         (VObj [("access_tokens", VArr [VNull] []);
                ("days_requested", VNum 30);
                ("options", VObj [("user", VObj [("first_name", VStr "Jane");
                                                 ("last_name", VStr "Foster")]);
                                  ("webhook", VStr "https://hooks.test/plaid")])])
       :: evs)%list.
Proof.
  exact (create_asset_report_uses_new_url (env_of failing_plaid) (env_of sandbox_plaid)
           (VObj [("newUrl", VStr "https://hooks.test/plaid")]) fresh eq_refl eq_refl).
Defined.

Lemma only_exchange_changes_store_witness :
  is_exchange (POST_update_webhook (VObj [("newUrl", VStr "https://hooks.test/plaid")])) = false /\
  userRecord
    (exec (handle (env_of sandbox_plaid)
             (POST_update_webhook (VObj [("newUrl", VStr "https://hooks.test/plaid")]))) linked) =
    userRecord linked.
Proof.
  split; [reflexivity|].
  exact (proj1 (only_exchange_changes_store (env_of sandbox_plaid)
                  (POST_update_webhook (VObj [("newUrl", VStr "https://hooks.test/plaid")]))
                  linked eq_refl)).
Defined.

(** *** The exchange and what follows it *)

(** Reads the request a data route sends first off its run. *)
Ltac first_request :=
  match goal with
  | |- context [match ?call with Ok _ => _ | Throw _ => _ end] =>
      destruct call as [response|e];
      [ destruct (get_prop response "data") as [data|e];
        [ eexists; cbn; rewrite <- !app_assoc; reflexivity | ] | ];
      match goal with
      | |- context [next ?e ?s0] => destruct (next_extends e s0) as (evs & ->)
      end;
      eexists; cbn; rewrite <- !app_assoc; reflexivity
  end.

Lemma transactions_request env s :
  is_nullish (userRecord s) = false ->
  exists evs,
    trace (exec (transactions env) s) =
      (trace s ++
       PlaidCall "transactionsGet"
         (VObj [("access_token", field (userRecord s) FIELD_ACCESS_TOKEN);
                ("start_date", VStr (moment_30_days_ago env));
                ("end_date", VStr (moment_today env));
                ("options", VObj [("count", VNum 10)])])
       :: evs)%list.
Proof.
  intros Hnn. unfold exec, transactions.
  cbv [try_catch bind gets get lift plaid_call modify res_json].
  rewrite (get_prop_field _ _ Hnn). first_request.
Qed.

Lemma balances_request env s :
  is_nullish (userRecord s) = false ->
  exists evs,
    trace (exec (balances env) s) =
      (trace s ++
       PlaidCall "accountsBalanceGet"
         (VObj [("access_token", field (userRecord s) FIELD_ACCESS_TOKEN);
                ("options",
                 VObj [("min_last_updated_datetime", VStr "2020-01-01T00:00:00Z")])])
       :: evs)%list.
Proof.
  intros Hnn. unfold exec, balances.
  cbv [try_catch bind gets get lift plaid_call modify res_json].
  rewrite (get_prop_field _ _ Hnn). first_request.
Qed.

Lemma fire_test_webhook_request env s :
  is_nullish (userRecord s) = false ->
  exists evs,
    trace (exec (fire_test_webhook env) s) =
      (trace s ++
       PlaidCall "sandboxItemFireWebhook"
         (VObj [("access_token", field (userRecord s) FIELD_ACCESS_TOKEN);
                ("webhook_type", VStr WebhookType_Item);
                ("webhook_code", AuthDataUpdate env)])
       :: evs)%list.
Proof.
  intros Hnn. unfold exec, fire_test_webhook.
  cbv [try_catch bind gets get lift plaid_call modify res_json].
  rewrite (get_prop_field _ _ Hnn). first_request.
Qed.

Section Exchange.

Context `{JsonRuntime}.

(** A successful exchange on a record that is an object, step by step,
    with the outcome of each write. *)
Lemma swap_public_token_run env body s props public_token response data token :
  get_prop body "public_token" = Ok public_token ->
  itemPublicTokenExchange (plaidClient env) (VObj [("public_token", public_token)])
    = Ok response ->
  get_prop response "data" = Ok data ->
  get_prop data "access_token" = Ok token ->
  userRecord s = VObj props ->
  userRecord (exec (swap_public_token env body) s) =
    VObj (assign FIELD_USER_STATUS (VStr "connected")
            (assign FIELD_ACCESS_TOKEN token props)) /\
  webhookUrl (exec (swap_public_token env body) s) = webhookUrl s /\
  forall t1 t2,
    JSON_stringify (VObj (assign FIELD_ACCESS_TOKEN token props)) = Some t1 ->
    JSON_stringify
      (VObj (assign FIELD_USER_STATUS (VStr "connected")
               (assign FIELD_ACCESS_TOKEN token props))) = Some t2 ->
    fault_at 1 s = None ->
    disk (exec (swap_public_token env body) s) = Some t2.
Proof.
  intros Hbody Hcall Hdata Htoken Hrec.
  destruct s as [rec url cfg d faults tr]; unfold fault_at; simpl in *. subst rec.
  unfold exec, swap_public_token.
  cbv [bind try_catch get lift plaid_call modify to_string].
  rewrite Hbody. cbn. rewrite Hcall, Hdata.
  assert (Hshown : exists shown,
            ToString (match JSON_stringify data with
                      | Some t => VStr t
                      | None => VUndefined
                      end) = Ok shown)
    by (destruct (JSON_stringify data); simpl; eauto).
  destruct Hshown as (shown & ->). cbn. rewrite Htoken.
  run.
  destruct (JSON_stringify (VObj (assign FIELD_ACCESS_TOKEN token props))) as [t1|]; cbn;
    destruct faults as [|[c0|] [|[c1|] rest]]; cbn;
    destruct (JSON_stringify
                (VObj (assign FIELD_USER_STATUS (VStr "connected")
                         (assign FIELD_ACCESS_TOKEN token props)))) as [t2|]; cbn;
    repeat split;
    try (intros t1' t2' E1 E2 E3; inversion E1; inversion E2; subst;
         first [reflexivity | discriminate]).
Qed.

(** X12.  A rejected exchange changes nothing: whatever the rejection,
    the handler returns having attempted no write and no further call; the
    record, the store and the file system are as before, and after the call
    it has only printed and answered.  When the rejection is an error as
    the remote client raises them (a value Express takes for an error,
    whose nested data is not a bare number), the answer is that of the
    error responder, with status 500. *)
Theorem swap_public_token_rejected env body s public_token err :
  get_prop body "public_token" = Ok public_token ->
  itemPublicTokenExchange (plaidClient env) (VObj [("public_token", public_token)])
    = Throw err ->
  exists evs,
    swap_public_token env body s =
      (Ok tt,
       appends (PlaidCall "itemPublicTokenExchange" (VObj [("public_token", public_token)])
                :: evs) s) /\
    forallb is_output evs = true /\
    (express_error err = true ->
     is_number (nested_data err) = false ->
     evs = [ConsoleError [VStr "Your error:"];
            ConsoleError [err];
            Respond 500 (error_body err)]).
Proof.
  intros Hbody Hcall.
  destruct (next_returns err) as (evs & Hout & Hnext & Hevs).
  exists evs. split; [|split; assumption].
  unfold swap_public_token.
  cbv [bind try_catch get lift plaid_call modify].
  rewrite Hbody, Hcall. rewrite Hnext. now gather.
Qed.

(** X15.  On a record that takes no property (the store held a number, a
    string or a boolean), the exchange is made remotely and then lost:
    the first assignment throws, nothing is written, and the handler
    answers 500 with the generic payload; the state is as before. *)
Theorem swap_public_token_on_primitive_record
    env body s public_token response data token e :
  get_prop body "public_token" = Ok public_token ->
  itemPublicTokenExchange (plaidClient env) (VObj [("public_token", public_token)])
    = Ok response ->
  get_prop response "data" = Ok data ->
  get_prop data "access_token" = Ok token ->
  set_prop (userRecord s) FIELD_ACCESS_TOKEN token = Throw e ->
  swap_public_token env body s =
    (Ok tt,
     appends [PlaidCall "itemPublicTokenExchange" (VObj [("public_token", public_token)]);
              ConsoleLog [VStr ("You got back " ++
                                match JSON_stringify data with
                                | Some t => t
                                | None => "undefined"
                                end)];
              ConsoleError [VStr "Your error:"];
              ConsoleError [e];
              Respond 500 other_error] s).
Proof.
  intros Hbody Hcall Hdata Htoken Hset.
  assert (He : express_error e = true /\ is_number (nested_data e) = false /\
               error_body e = other_error).
  { destruct (userRecord s); simpl in Hset; inversion Hset; now repeat split. }
  destruct He as (Herr & Hdata_e & Hbody_e).
  unfold swap_public_token.
  cbv [bind try_catch get lift plaid_call modify to_string].
  rewrite Hbody, Hcall, Hdata.
  assert (Hshown :
            ToString (match JSON_stringify data with
                      | Some t => VStr t
                      | None => VUndefined
                      end)
            = Ok (match JSON_stringify data with Some t => t | None => "undefined" end))
    by (destruct (JSON_stringify data); reflexivity).
  rewrite Hshown, Htoken. cbn.
  match goal with
  | |- context [updateUserRecord FIELD_ACCESS_TOKEN token ?s1] =>
      destruct (updateUserRecord_cases FIELD_ACCESS_TOKEN token s1)
        as [(r1 & s2 & Hset1 & _) | (e' & Hset1 & ->)]
  end.
  - cbn in Hset1. congruence.
  - cbn in Hset1. assert (e' = e) by congruence. subst e'.
    rewrite (next_run _ _ Herr Hdata_e), Hbody_e. now gather.
Qed.

(** X13.  After a successful exchange on a record that is an object, the
    four routes that use the access token send the exchanged one, each as
    the first thing it does: the transactions of the last thirty days
    (ten of them), the balances, the asset report and the test webhook. *)
Theorem routes_send_exchanged_token
    env env' body s props public_token response data token :
  get_prop body "public_token" = Ok public_token ->
  itemPublicTokenExchange (plaidClient env) (VObj [("public_token", public_token)])
    = Ok response ->
  get_prop response "data" = Ok data ->
  get_prop data "access_token" = Ok token ->
  userRecord s = VObj props ->
  (exists evs,
     trace (exec (transactions env') (exec (swap_public_token env body) s)) =
       (trace (exec (swap_public_token env body) s) ++
        PlaidCall "transactionsGet"
          (VObj [("access_token", token);
                 ("start_date", VStr (moment_30_days_ago env'));
                 ("end_date", VStr (moment_today env'));
                 ("options", VObj [("count", VNum 10)])])
        :: evs)%list) /\
  (exists evs,
     trace (exec (balances env') (exec (swap_public_token env body) s)) =
       (trace (exec (swap_public_token env body) s) ++
        PlaidCall "accountsBalanceGet"
          (VObj [("access_token", token);
                 ("options",
                  VObj [("min_last_updated_datetime", VStr "2020-01-01T00:00:00Z")])])
        :: evs)%list) /\
  (exists evs,
     trace (exec (create_asset_report env') (exec (swap_public_token env body) s)) =
       (trace (exec (swap_public_token env body) s) ++
        PlaidCall "assetReportCreate"
          (VObj [("access_tokens", VArr [token] []);
                 ("days_requested", VNum 30);
                 ("options", VObj [("user", VObj [("first_name", VStr "Jane");
                                                  ("last_name", VStr "Foster")]);
                                   ("webhook", webhookUrl s)])])
        :: evs)%list) /\
  (exists evs,
     trace (exec (fire_test_webhook env') (exec (swap_public_token env body) s)) =
       (trace (exec (swap_public_token env body) s) ++
        PlaidCall "sandboxItemFireWebhook"
          (VObj [("access_token", token);
                 ("webhook_type", VStr WebhookType_Item);
                 ("webhook_code", AuthDataUpdate env')])
        :: evs)%list).
Proof.
  intros Hbody Hcall Hdata Htoken Hrec.
  destruct (swap_public_token_run env body s props public_token response data token
              Hbody Hcall Hdata Htoken Hrec) as (Hrec' & Hurl & _).
  assert (Hnn : is_nullish (userRecord (exec (swap_public_token env body) s)) = false)
    by now rewrite Hrec'.
  assert (Hfield : field (userRecord (exec (swap_public_token env body) s))
                     FIELD_ACCESS_TOKEN = token).
  { rewrite Hrec'. unfold field. simpl get_prop.
    rewrite (lookup_assign_other FIELD_USER_STATUS FIELD_ACCESS_TOKEN) by reflexivity.
    now rewrite lookup_assign_same. }
  repeat split.
  - destruct (transactions_request env' _ Hnn) as (evs & Hevs). exists evs.
    now rewrite Hevs, Hfield.
  - destruct (balances_request env' _ Hnn) as (evs & Hevs). exists evs.
    now rewrite Hevs, Hfield.
  - destruct (create_asset_report_request env' _ Hnn) as (evs & Hevs). exists evs.
    now rewrite Hevs, Hfield, Hurl.
  - destruct (fire_test_webhook_request env' _ Hnn) as (evs & Hevs). exists evs.
    now rewrite Hevs, Hfield.
Qed.

(** X14.  The connection survives a restart: after a successful exchange
    whose second write went through, a process started on the store that
    exchange left, with a file system that lets it read, has the connected
    record with the exchanged token in memory, provided the record
    survives JSON; [get_user_info] then answers ["connected"]. *)
Theorem restart_after_exchange
    env body s props public_token response data token t1 t2 url faults :
  get_prop body "public_token" = Ok public_token ->
  itemPublicTokenExchange (plaidClient env) (VObj [("public_token", public_token)])
    = Ok response ->
  get_prop response "data" = Ok data ->
  get_prop data "access_token" = Ok token ->
  userRecord s = VObj props ->
  JSON_stringify (VObj (assign FIELD_ACCESS_TOKEN token props)) = Some t1 ->
  JSON_stringify
    (VObj (assign FIELD_USER_STATUS (VStr "connected")
             (assign FIELD_ACCESS_TOKEN token props))) = Some t2 ->
  fault_at 1 s = None ->
  JSON_parse t2 =
    Some (VObj (assign FIELD_USER_STATUS (VStr "connected")
                  (assign FIELD_ACCESS_TOKEN token props))) ->
  userRecord
    (exec startup (boot url (disk (exec (swap_public_token env body) s)) (None :: faults))) =
    VObj (assign FIELD_USER_STATUS (VStr "connected")
            (assign FIELD_ACCESS_TOKEN token props)) /\
  get_user_info
    (exec startup (boot url (disk (exec (swap_public_token env body) s)) (None :: faults))) =
    (Ok tt,
     appends [Respond 200 (VObj [("user_status", VStr "connected")])]
       (exec startup
          (boot url (disk (exec (swap_public_token env body) s)) (None :: faults)))).
Proof.
  intros Hbody Hcall Hdata Htoken Hrec H1 H2 Hfault Hparse.
  destruct (swap_public_token_run env body s props public_token response data token
              Hbody Hcall Hdata Htoken Hrec) as (_ & _ & Hdisk).
  rewrite (Hdisk t1 t2 H1 H2 Hfault).
  assert (Hstart :
            userRecord (exec startup (boot url (Some t2) (None :: faults))) =
              VObj (assign FIELD_USER_STATUS (VStr "connected")
                      (assign FIELD_ACCESS_TOKEN token props))).
  { run. rewrite Hparse. reflexivity. }
  split; [exact Hstart|].
  rewrite get_user_info_run by now rewrite Hstart.
  rewrite Hstart. unfold field. simpl get_prop. now rewrite lookup_assign_same.
Qed.

End Exchange.

Lemma swap_public_token_rejected_witness :
  swap_public_token (env_of failing_plaid) public_xyz linked =
    (Ok tt,
     appends [PlaidCall "itemPublicTokenExchange" public_xyz;
              ConsoleError [VStr "Your error:"];
              ConsoleError [login_required];
              Respond 500
                (VObj [("error_code", VStr "ITEM_LOGIN_REQUIRED");
                       ("error_message", VStr "the login details have changed")])]
       linked).
Proof.
  destruct (swap_public_token_rejected (env_of failing_plaid) public_xyz linked
              (VStr "public-xyz") login_required)
    as (evs & Hrun & _ & Hevs);
    [reflexivity | reflexivity
    | rewrite Hrun, (Hevs eq_refl eq_refl); reflexivity].
Defined.

Lemma swap_public_token_on_primitive_record_witness :
  userRecord (exec startup (boot None (Some "5") [])) = VNum 5 /\
  snd (swap_public_token (env_of sandbox_plaid) public_xyz
         (exec startup (boot None (Some "5") []))) =
    appends [PlaidCall "itemPublicTokenExchange" public_xyz;
             ConsoleLog [VStr ("You got back " ++
                               serialized (VObj [("access_token", VStr "access-sandbox-1");
                                                 ("item_id", VStr "item-1")]))];
             ConsoleError [VStr "Your error:"];
             ConsoleError [type_error "Cannot create property 'accessToken' on a primitive value"];
             Respond 500 other_error]
      (exec startup (boot None (Some "5") [])).
Proof.
  split; [reflexivity|].
  rewrite (swap_public_token_on_primitive_record (env_of sandbox_plaid) public_xyz
             (exec startup (boot None (Some "5") []))
             (VStr "public-xyz")
             (VObj [("status", VNum 200);
                    ("data", VObj [("access_token", VStr "access-sandbox-1");
                                   ("item_id", VStr "item-1")])])
             (VObj [("access_token", VStr "access-sandbox-1"); ("item_id", VStr "item-1")])
             (VStr "access-sandbox-1")
             (type_error "Cannot create property 'accessToken' on a primitive value"));
    reflexivity.
Defined.

Lemma routes_send_exchanged_token_witness :
  exists evs,
    trace (exec (transactions (env_of sandbox_plaid)) linked) =
      (trace linked ++
       PlaidCall "transactionsGet"
         (VObj [("access_token", VStr "access-sandbox-1");
                ("start_date", VStr "2024-03-01");
                ("end_date", VStr "2024-03-31");
                ("options", VObj [("count", VNum 10)])])
       :: evs)%list.
Proof.
  exact (proj1 (routes_send_exchanged_token (env_of sandbox_plaid) (env_of sandbox_plaid)
                  public_xyz fresh
                  [(FIELD_ACCESS_TOKEN, VNull); (FIELD_USER_STATUS, VStr "disconnected")]
                  (VStr "public-xyz")
                  (VObj [("status", VNum 200);
                         ("data", VObj [("access_token", VStr "access-sandbox-1");
                                        ("item_id", VStr "item-1")])])
                  (VObj [("access_token", VStr "access-sandbox-1"); ("item_id", VStr "item-1")])
                  (VStr "access-sandbox-1")
                  eq_refl eq_refl eq_refl eq_refl eq_refl)).
Defined.

Lemma restart_after_exchange_witness :
  userRecord (exec startup (boot None (disk linked) [None])) =
    VObj [(FIELD_ACCESS_TOKEN, VStr "access-sandbox-1");
          (FIELD_USER_STATUS, VStr "connected")].
Proof.
  refine (proj1 (restart_after_exchange (env_of sandbox_plaid) public_xyz fresh
                   [(FIELD_ACCESS_TOKEN, VNull); (FIELD_USER_STATUS, VStr "disconnected")]
                   (VStr "public-xyz")
                   (VObj [("status", VNum 200);
                          ("data", VObj [("access_token", VStr "access-sandbox-1");
                                         ("item_id", VStr "item-1")])])
                   (VObj [("access_token", VStr "access-sandbox-1"); ("item_id", VStr "item-1")])
                   (VStr "access-sandbox-1")
                   (serialized (VObj [(FIELD_ACCESS_TOKEN, VStr "access-sandbox-1");
                                      (FIELD_USER_STATUS, VStr "disconnected")]))
                   (serialized (VObj [(FIELD_ACCESS_TOKEN, VStr "access-sandbox-1");
                                      (FIELD_USER_STATUS, VStr "connected")]))
                   None [] _ _ _ _ _ _ _ _ _)); reflexivity.
Defined.
